(** * Swap quoting of the AMM pool states (cardex/dexs/abstract_classes.py)

    A shallow embedding of [AbstractConstantProductPoolState] and
    [AbstractStableSwapPoolState]: the constant-product quote over unbounded
    integers, and the stable-swap quote with its two Newton loops over Python
    floats (IEEE 754 binary64, modelled by [spec_float] at precision 53 and
    maximal exponent 1024). Python exceptions are the [Raise] results of a
    small error monad. *)

From Stdlib Require Import ZArith Lia String List Bool.
From Stdlib Require Import SpecFloat.
Import ListNotations.
Open Scope string_scope.
Open Scope Z_scope.

(** ** Exceptions and the error monad *)

(** The exceptions the two classes can raise. The exceptions raised by the
    source itself carry their message; the interpreter's own do not, except
    the [ValueError] of [int(nan)], which has to stay apart from the
    validation errors of [_get_y]. *)
Inductive exn : Type :=
| AssertionError (msg : string)
| ValueError (msg : string)
| ZeroDivisionError
| OverflowError
| IndexError.

Inductive result (A : Type) : Type :=
| Ok (a : A)
| Raise (e : exn).

Arguments Ok {A} a.
Arguments Raise {A} e.

Definition bind {A B : Type} (r : result A) (k : A -> result B) : result B :=
  match r with
  | Ok a => k a
  | Raise e => Raise e
  end.

Notation "x <- r ;; k" := (bind r (fun x => k))
  (at level 61, r at next level, right associativity).
Notation "r ;;; k" := (bind r (fun _ => k))
  (at level 61, right associativity).

(** [assert cond, msg] *)
Definition py_assert (cond : bool) (msg : string) : result unit :=
  if cond then Ok tt else Raise (AssertionError msg).

(** ** Python numbers *)

Definition float : Type := spec_float.

Definition prec : Z := 53.
Definition emax : Z := 1024.

Definition fadd : float -> float -> float := SFadd prec emax.
Definition fsub : float -> float -> float := SFsub prec emax.
Definition fmul : float -> float -> float := SFmul prec emax.
Definition fdiv : float -> float -> float := SFdiv prec emax.

Definition is_zero (f : float) : bool :=
  match f with
  | S754_zero _ => true
  | _ => false
  end.

(** A float that came out infinite where the interpreter checks the range. *)
Definition range_checked (f : float) : result float :=
  match f with
  | S754_infinity _ => Raise OverflowError
  | _ => Ok f
  end.

(** [float(n)] for an int, as the mixed operators convert it: the nearest
    double, ties to even, [OverflowError] beyond the largest one. *)
Definition float_of_int (n : Z) : result float :=
  range_checked (binary_normalize prec emax n 0 false).

(** An int as the exact quotient of [SFdiv]: mantissa [|n|], exponent 0. *)
Definition int_mantissa (n : Z) : float :=
  S754_finite (n <? 0) (Z.to_pos (Z.abs n)) 0.

(** [a / b] on two ints: the exact quotient rounded once to the nearest
    double; a zero quotient takes the sign of the operands. *)
Definition int_true_divide (a b : Z) : result float :=
  if b =? 0 then Raise ZeroDivisionError
  else if a =? 0 then Ok (S754_zero (b <? 0))
  else range_checked (fdiv (int_mantissa a) (int_mantissa b)).

(** [a // b] on two ints. *)
Definition int_floor_divide (a b : Z) : result Z :=
  if b =? 0 then Raise ZeroDivisionError else Ok (a / b).

(** [x ** n] on a float for a literal exponent [n >= 1]. The C library's
    [pow] is taken to round the exact power correctly, which the language
    does not promise: a library whose [pow] is off by a unit in the last
    place gives a neighbouring double where the power is not exact. The
    general theorems below state no value of a power; the worked examples
    do. A finite base whose power leaves the range raises. *)
Definition float_pow (x : float) (n : positive) : result float :=
  let odd := Z.odd (Zpos n) in
  match x with
  | S754_nan => Ok S754_nan
  | S754_infinity s => Ok (S754_infinity (s && odd))
  | S754_zero s => Ok (S754_zero (s && odd))
  | S754_finite s m e =>
      range_checked (binary_round prec emax (s && odd) (Pos.pow m n) (Zpos n * e))
  end.

(** The exact order of a float and an int, as the mixed comparison has it. *)
Definition float_int_compare (f : float) (n : Z) : option comparison :=
  match f with
  | S754_nan => None
  | S754_infinity s => Some (if s then Lt else Gt)
  | S754_zero _ => Some (0 ?= n)
  | S754_finite s m e =>
      let v := cond_Zopp s (Zpos m) in
      if 0 <=? e then Some (v * 2 ^ e ?= n) else Some (v ?= n * 2 ^ (- e))
  end.

(** [int(x)] on a float: truncation towards zero. *)
Definition int_of_float (f : float) : result Z :=
  match f with
  | S754_nan => Raise (ValueError "cannot convert float NaN to integer")
  | S754_infinity _ => Raise OverflowError
  | S754_zero _ => Ok 0
  | S754_finite s m e =>
      Ok (cond_Zopp s (if 0 <=? e then Zpos m * 2 ^ e else Zpos m / 2 ^ (- e)))
  end.

(** A value of the numeric tower the two classes compute with. *)
Inductive num : Type :=
| PInt (n : Z)
| PFloat (f : float).

Definition to_float (x : num) : result float :=
  match x with
  | PInt n => float_of_int n
  | PFloat f => Ok f
  end.

Definition float_binop (op : float -> float -> float) (x y : num) : result num :=
  a <- to_float x ;;
  b <- to_float y ;;
  Ok (PFloat (op a b)).

Definition py_add (x y : num) : result num :=
  match x, y with
  | PInt a, PInt b => Ok (PInt (a + b))
  | _, _ => float_binop fadd x y
  end.

Definition py_sub (x y : num) : result num :=
  match x, y with
  | PInt a, PInt b => Ok (PInt (a - b))
  | _, _ => float_binop fsub x y
  end.

Definition py_mul (x y : num) : result num :=
  match x, y with
  | PInt a, PInt b => Ok (PInt (a * b))
  | _, _ => float_binop fmul x y
  end.

Definition py_truediv (x y : num) : result num :=
  match x, y with
  | PInt a, PInt b => f <- int_true_divide a b ;; Ok (PFloat f)
  | _, _ =>
      a <- to_float x ;;
      b <- to_float y ;;
      if is_zero b then Raise ZeroDivisionError else Ok (PFloat (fdiv a b))
  end.

Definition py_pow (x : num) (n : positive) : result num :=
  match x with
  | PInt a => Ok (PInt (a ^ Zpos n))
  | PFloat f => r <- float_pow f n ;; Ok (PFloat r)
  end.

Definition py_abs (x : num) : num :=
  match x with
  | PInt a => PInt (Z.abs a)
  | PFloat f => PFloat (SFabs f)
  end.

Definition py_lt (x y : num) : bool :=
  match x, y with
  | PInt a, PInt b => a <? b
  | PFloat f, PFloat g => SFltb f g
  | PFloat f, PInt b =>
      match float_int_compare f b with Some Lt => true | _ => false end
  | PInt a, PFloat g =>
      match float_int_compare g a with Some Gt => true | _ => false end
  end.

(** [x == y] on numbers. *)
Definition py_eq (x y : num) : bool :=
  match x, y with
  | PInt a, PInt b => a =? b
  | PFloat f, PFloat g => SFeqb f g
  | PFloat f, PInt b | PInt b, PFloat f =>
      match float_int_compare f b with Some Eq => true | _ => false end
  end.

Definition py_int (x : num) : result Z :=
  match x with
  | PInt a => Ok a
  | PFloat f => int_of_float f
  end.

(** Expressions: operands are evaluated left to right, the first exception
    wins. *)
Definition expr : Type := result num.

Definition lift2 (op : num -> num -> result num) (x y : expr) : expr :=
  a <- x ;; b <- y ;; op a b.

Definition int (n : Z) : expr := Ok (PInt n).
Definition val (x : num) : expr := Ok x.

Declare Scope py_scope.
Delimit Scope py_scope with py.
Bind Scope py_scope with expr.
Notation "x + y" := (lift2 py_add x y) : py_scope.
Notation "x - y" := (lift2 py_sub x y) : py_scope.
Notation "x * y" := (lift2 py_mul x y) : py_scope.
Notation "x / y" := (lift2 py_truediv x y) : py_scope.
Notation "x ** n" := (a <- x ;; py_pow a n)
  (at level 30, right associativity) : py_scope.

(** ** The asset bag and the pool state *)

(** Modelled from the spec: the asset quantity bag
    ([cardex.dataclasses.models.Assets], not part of this file's source), a
    mapping from asset identifier to integer quantity that keeps the order of
    its entries. [unit()] and [quantity()] read the first entry and, as list
    indexing does, fail on an empty bag. *)
Definition Assets : Type := list (string * Z).

Definition len (a : Assets) : Z := Z.of_nat (List.length a).

Definition unit (a : Assets) : result string :=
  match a with
  | [] => Raise IndexError
  | (u, _) :: _ => Ok u
  end.

Definition quantity (a : Assets) : result Z :=
  match a with
  | [] => Raise IndexError
  | (_, q) :: _ => Ok q
  end.

(** The bag built from the one keyword argument [u = q]. *)
Definition Assets_single (u : string) (q : Z) : Assets := [(u, q)].

(** [a.__root__[k] = v] *)
Fixpoint setitem (a : Assets) (k : string) (v : Z) : Assets :=
  match a with
  | [] => [(k, v)]
  | (u, q) :: rest =>
      if (u =? k)%string then (u, v) :: rest else (u, q) :: setitem rest k v
  end.

(** Modelled from the spec: the attributes of the pool state that the quoting
    code reads ([cardex.dexs.base_classes.BasePoolState] is not part of this
    file's source): the two asset identifiers, their reserves, and the fee in
    basis points. The constant-product class calls [self.volume_fee()] and
    the stable-swap class reads [self.volume_fee]; both are taken to yield
    the integer fee. *)
Record PoolState : Type := {
  unit_a : string;
  unit_b : string;
  reserve_a : Z;
  reserve_b : Z;
  volume_fee : Z
}.

(** [u in [self.unit_a, self.unit_b]] *)
Definition in_units (self : PoolState) (u : string) : bool :=
  ((u =? unit_a self) || (u =? unit_b self))%string.

(** ** AbstractConstantProductPoolState *)

Module AbstractConstantProductPoolState.

(** The f-string of the second assertion; [{asset.unit}] formats the bound
    method, not the unit. *)
Definition invalid_asset_msg (self : PoolState) : string :=
  "Asset <bound method Assets.unit> is invalid for pool "
    ++ unit_a self ++ "-" ++ unit_b self.

Definition get_amount_out (self : PoolState) (asset : Assets)
  : result (Assets * num) :=
  py_assert (len asset =? 1) "Asset should only have one token." ;;;
  u <- unit asset ;;
  py_assert (in_units self u) (invalid_asset_msg self) ;;;
  u <- unit asset ;;
  let '(reserve_in, reserve_out, unit_out) :=
    if (u =? unit_a self)%string
    then (reserve_a self, reserve_b self, unit_b self)
    else (reserve_b self, reserve_a self, unit_a self) in
  (* Calculate the amount out *)
  let fee_modifier := 10000 - volume_fee self in
  q <- quantity asset ;;
  let numerator := q * fee_modifier * reserve_out in
  let denominator := q * fee_modifier + reserve_in * 10000 in
  n <- int_floor_divide numerator denominator ;;
  let amount_out := Assets_single unit_out n in
  q_out <- quantity amount_out ;;
  if q_out =? 0 then Ok (amount_out, PInt 0)
  else
    (* Calculate the price impact *)
    let price_numerator :=
      reserve_out * q * denominator * fee_modifier
      - numerator * reserve_in * 10000 in
    let price_denominator := reserve_out * q * denominator * 10000 in
    price_impact <- int_true_divide price_numerator price_denominator ;;
    Ok (amount_out, PFloat price_impact).

End AbstractConstantProductPoolState.

(** ** AbstractStableSwapPoolState *)

Module AbstractStableSwapPoolState.

Definition amp : Z := 75.

(** The body of [for i in range(256)] in [_get_D], [i] rounds left. *)
Fixpoint _get_D_loop (i : nat) (self : PoolState) (N_COINS Ann S : Z)
    (D : num) : result num :=
  match i with
  | O => Ok D
  | Datatypes.S i' =>
      D_P <- (val D ** 3
              / int (N_COINS ^ N_COINS * reserve_a self * reserve_b self))%py ;;
      let D_prev := D in
      D <- (val D * (int (Ann * S) + val D_P * int N_COINS)
            / (int (Ann - 1) * val D + int (N_COINS + 1) * val D_P))%py ;;
      d <- (val D - val D_prev)%py ;;
      if py_lt (py_abs d) (PInt 1) then Ok D
      else _get_D_loop i' self N_COINS Ann S D
  end.

Definition _get_D (self : PoolState) : result num :=
  let N_COINS := 2 in
  let Ann := amp * N_COINS ^ N_COINS in
  let S := reserve_a self + reserve_b self in
  if S =? 0 then Ok (PInt 0)
  else
    (* Iterate until the change in value is <1 unit. *)
    let D := PInt S in
    _get_D_loop 256 self N_COINS Ann S D.

(** The body of [for i in range(256)] in [_get_y]. *)
Fixpoint _get_y_loop (i : nat) (c b D out : num) : result num :=
  match i with
  | O => Ok out
  | Datatypes.S i' =>
      let out_prev := out in
      out <- ((val out ** 2 + val c)
              / (int 2 * val out + val b - val D))%py ;;
      d <- (val out - val out_prev)%py ;;
      if py_lt (py_abs d) (PInt 1) then Ok out
      else _get_y_loop i' c b D out
  end.

Definition _get_y (self : PoolState) (in_assets : Assets) (out_unit : string)
  : result Assets :=
  let N_COINS := 2 in
  let Ann := amp * N_COINS ^ N_COINS in
  D <- _get_D self ;;
  (* Make sure only one input supplied *)
  (if 1 <? len in_assets
   then Raise (ValueError "Only one input asset allowed.")
   else
     u <- unit in_assets ;;
     if negb (in_units self u)
     then Raise (ValueError "Invalid input token.")
     else if negb (in_units self out_unit)
     then Raise (ValueError "Invalid output token.")
     else Ok tt) ;;;
  q <- quantity in_assets ;;
  in_quantity <- (int (q * (10000 - volume_fee self)) / int 10000)%py ;;
  u <- unit in_assets ;;
  in_reserve <-
    (if (u =? unit_a self)%string
     then int (reserve_a self) + val in_quantity
     else int (reserve_b self) + val in_quantity)%py ;;
  let S := in_reserve in
  c <- (val D ** 3 / (int (N_COINS ^ 2 * Ann) * val in_reserve))%py ;;
  b <- (val S + val D / int Ann)%py ;;
  let out_prev := PInt 0 in
  let out := D in
  out <- _get_y_loop 256 c b D out ;;
  n <- py_int out ;;
  Ok (Assets_single out_unit n).

Definition get_amount_out (self : PoolState) (asset : Assets)
  : result (Assets * num) :=
  u <- unit asset ;;
  let out_unit := if (u =? unit_b self)%string then unit_a self else unit_b self in
  out_asset <- _get_y self asset out_unit ;;
  let out_reserve :=
    if (out_unit =? unit_b self)%string then reserve_b self else reserve_a self in
  q <- quantity out_asset ;;
  k <- unit out_asset ;;
  Ok (setitem out_asset k (out_reserve - q), PInt 0).

End AbstractStableSwapPoolState.

(** ** The properties the quotes are checked against *)

(** The invariants of the data model: two distinct units, reserves that are
    not negative, a fee below 10000 basis points. *)
Record well_formed (self : PoolState) : Prop := {
  wf_units : unit_a self <> unit_b self;
  wf_reserve_a : 0 <= reserve_a self;
  wf_reserve_b : 0 <= reserve_b self;
  wf_fee : 0 <= volume_fee self < 10000
}.

(** The exceptions by which the two classes reject an input bag: the
    assertions of the constant-product quote and the three [ValueError]s of
    [_get_y]. *)
Definition InvalidInput (e : exn) : bool :=
  match e with
  | AssertionError _ => true
  | ValueError msg =>
      ((msg =? "Only one input asset allowed.")
       || (msg =? "Invalid input token.")
       || (msg =? "Invalid output token."))%string
  | _ => false
  end.

Definition raises_InvalidInput {A : Type} (r : result A) : bool :=
  match r with
  | Ok _ => false
  | Raise e => InvalidInput e
  end.

(** The exceptions of the arithmetic itself. *)
Definition arithmetic_error (e : exn) : bool :=
  match e with
  | ZeroDivisionError | OverflowError => true
  | _ => false
  end.

(** The exceptions of the interpreter: arithmetic, indexing, and [int(nan)]. *)
Definition interpreter_error (e : exn) : bool :=
  match e with
  | ZeroDivisionError | OverflowError | IndexError => true
  | ValueError msg => (msg =? "cannot convert float NaN to integer")%string
  | AssertionError _ => false
  end.

Definition raises_only {A : Type} (P : exn -> bool) (r : result A) : Prop :=
  match r with
  | Ok _ => True
  | Raise e => P e = true
  end.

(** A zero, or a finite double of sign [s] and of magnitude at most [2^k]. *)
Definition finite_upto (s : bool) (k : Z) (f : float) : Prop :=
  f = S754_zero s
  \/ exists m e, f = S754_finite s m e /\ e <= k /\ Zpos m <= 2 ^ (k - e).

(** [0 <= f <= 1] in exact arithmetic. *)
Definition in_unit_interval (f : float) : Prop :=
  (float_int_compare f 0 = Some Eq \/ float_int_compare f 0 = Some Gt)
  /\ (float_int_compare f 1 = Some Lt \/ float_int_compare f 1 = Some Eq).

(** [n <= f < n + 1] in exact arithmetic. *)
Definition is_floor_of (f : float) (n : Z) : Prop :=
  (float_int_compare f n = Some Eq \/ float_int_compare f n = Some Gt)
  /\ float_int_compare f (n + 1) = Some Lt.

(** The quote of the constant-product curve as the specification words it,
    for a pool [self] and the single entry [u: q] of the input bag. *)
Module ConstantProductQuote.
Section Quote.
Variable self : PoolState.
Variable u : string.
Variable q : Z.

Definition reserve_in : Z :=
  if (u =? unit_a self)%string then reserve_a self else reserve_b self.
Definition reserve_out : Z :=
  if (u =? unit_a self)%string then reserve_b self else reserve_a self.
Definition unit_out : string :=
  if (u =? unit_a self)%string then unit_b self else unit_a self.
Definition fee_modifier : Z := 10000 - volume_fee self.
Definition numerator : Z := q * fee_modifier * reserve_out.
Definition denominator : Z := q * fee_modifier + reserve_in * 10000.
Definition amount_out : Z := numerator / denominator.
Definition price_numerator : Z :=
  reserve_out * q * denominator * fee_modifier
  - numerator * reserve_in * 10000.
Definition price_denominator : Z :=
  reserve_out * q * denominator * 10000.
End Quote.
End ConstantProductQuote.

(** Stage 1 of the stable-swap solve as the specification words it. *)
Module StableSwapInvariant.
Section Iteration.
Variable self : PoolState.

Definition N_COINS : Z := 2.
Definition Ann : Z := 75 * 4.
Definition S : Z := reserve_a self + reserve_b self.

(** [D_next] from [D]. *)
Definition D_next (D : num) : result num :=
  D_P <- (val D ** 3
          / int (N_COINS ^ N_COINS * reserve_a self * reserve_b self))%py ;;
  (val D * (int (Ann * S) + val D_P * int N_COINS)
   / (int (Ann - 1) * val D + int (N_COINS + 1) * val D_P))%py.

(** [|D_next - D| < 1] *)
Definition converged (D D' : num) : result bool :=
  d <- (val D' - val D)%py ;;
  Ok (py_lt (py_abs d) (PInt 1)).

(** [iterates k D]: [k] iterations from [D = S], none of which converged,
    lead to [D]. *)
Inductive iterates : nat -> num -> Prop :=
| iterates_init : iterates 0 (PInt S)
| iterates_step (k : nat) (D D' : num) :
    iterates k D ->
    D_next D = Ok D' ->
    converged D D' = Ok false ->
    iterates (Datatypes.S k) D'.

(** [last_iteration k D r]: the iteration from [D], the one after the first
    [k], is the last, and [r] is what comes out of it: the exception of its
    arithmetic, or its [D_next], which either converged or was the 256th. *)
Definition last_iteration (k : nat) (D : num) (r : result num) : Prop :=
  match D_next D with
  | Raise e => r = Raise e
  | Ok D' =>
      match converged D D' with
      | Raise e => r = Raise e
      | Ok c => r = Ok D' /\ (c = true \/ k = 255%nat)
      end
  end.
End Iteration.
End StableSwapInvariant.

(** Stage 2 of the stable-swap solve as the specification words it: the
    Newton iteration for the post-trade reserve of the output side, for given
    [c], [b] and [D]. *)
Module StableSwapProjection.
Section Solve.
Variable c b D : num.

(** [out_next] from [out]. *)
Definition out_next (out : num) : result num :=
  ((val out ** 2 + val c) / (int 2 * val out + val b - val D))%py.

(** [iterates k out]: [k] iterations from [out = D], none of which
    converged, lead to [out]. *)
Inductive iterates : nat -> num -> Prop :=
| iterates_init : iterates 0 D
| iterates_step (k : nat) (out out' : num) :
    iterates k out ->
    out_next out = Ok out' ->
    StableSwapInvariant.converged out out' = Ok false ->
    iterates (Datatypes.S k) out'.

(** [last_iteration k out r]: the iteration from [out], the one after the
    first [k], is the last, and [r] is what comes out of it. *)
Definition last_iteration (k : nat) (out : num) (r : result num) : Prop :=
  match out_next out with
  | Raise e => r = Raise e
  | Ok out' =>
      match StableSwapInvariant.converged out out' with
      | Raise e => r = Raise e
      | Ok stop => r = Ok out' /\ (stop = true \/ k = 255%nat)
      end
  end.
End Solve.
End StableSwapProjection.

Module CP := AbstractConstantProductPoolState.
Module SS := AbstractStableSwapPoolState.
Module Q := ConstantProductQuote.
Module I := StableSwapInvariant.
Module Y := StableSwapProjection.

(** The pools and bags of the worked examples. *)
Definition example_pool : PoolState :=
  {| unit_a := "lovelace"; unit_b := "token";
     reserve_a := 1000000; reserve_b := 1000000; volume_fee := 30 |}.

Definition empty_pool : PoolState :=
  {| unit_a := "lovelace"; unit_b := "token";
     reserve_a := 0; reserve_b := 0; volume_fee := 30 |}.

Definition one_sided_pool : PoolState :=
  {| unit_a := "lovelace"; unit_b := "token";
     reserve_a := 0; reserve_b := 5; volume_fee := 30 |}.

Definition thin_pool : PoolState :=
  {| unit_a := "lovelace"; unit_b := "token";
     reserve_a := 1; reserve_b := 2; volume_fee := 0 |}.

Definition skewed_pool : PoolState :=
  {| unit_a := "lovelace"; unit_b := "token";
     reserve_a := 123456789; reserve_b := 987654321; volume_fee := 30 |}.

Definition one : float := S754_finite false 4503599627370496 (-52).

(** ** AbstractPoolState: the lazily decoded pool datum *)

Module AbstractPoolState.
Section PoolDatum.

(** The datum type and the decoder [self.pool_datum_class.from_cbor] of the
    concrete pool class. *)
Variable PlutusData : Type.
Variable from_cbor : string -> result PlutusData.

(** Modelled from the spec: the two attributes that [pool_datum] reads and
    writes, the decoded datum (absent until the first decoding) and the raw
    encoding that [cardex.dexs.base_classes.BasePoolState] holds. *)
Record DatumState : Type := {
  datum_parsed : option PlutusData;
  datum_cbor : option string
}.

(** [not self.datum_cbor]: no encoding, or an empty one. *)
Definition no_cbor (self : DatumState) : bool :=
  match datum_cbor self with
  | None => true
  | Some raw => (raw =? "")%string
  end.

(** The property [pool_datum]: its outcome and the object after the call. *)
Definition pool_datum (self : DatumState) : result PlutusData * DatumState :=
  match datum_parsed self with
  | Some parsed => (Ok parsed, self)
  | None =>
      match datum_cbor self with
      | None => (Raise (ValueError "No datum specified."), self)
      | Some raw =>
          if (raw =? "")%string
          then (Raise (ValueError "No datum specified."), self)
          else
            match from_cbor raw with
            | Raise e => (Raise e, self)
            | Ok parsed =>
                (Ok parsed,
                 {| datum_parsed := Some parsed; datum_cbor := datum_cbor self |})
            end
      end
  end.

End PoolDatum.

Arguments datum_parsed {PlutusData} _.
Arguments datum_cbor {PlutusData} _.
Arguments Build_DatumState {PlutusData} _ _.
Arguments no_cbor {PlutusData} _.
Arguments pool_datum {PlutusData} _ _.

End AbstractPoolState.

(** ** Pools to compare a pool with *)

(** The same pool with its two assets named the other way round. *)
Definition mirror (self : PoolState) : PoolState :=
  {| unit_a := unit_b self; unit_b := unit_a self;
     reserve_a := reserve_b self; reserve_b := reserve_a self;
     volume_fee := volume_fee self |}.

(** The same pool at another fee. *)
Definition with_fee (self : PoolState) (fee : Z) : PoolState :=
  {| unit_a := unit_a self; unit_b := unit_b self;
     reserve_a := reserve_a self; reserve_b := reserve_b self;
     volume_fee := fee |}.

(** The exceptions a caller can take for a rejection by their class alone:
    any [AssertionError], any [ValueError]. *)
Definition rejection_class (e : exn) : bool :=
  match e with
  | AssertionError _ | ValueError _ => true
  | _ => false
  end.

(** The failed assertions of the constant-product quote. *)
Definition assertion_error (e : exn) : bool :=
  match e with
  | AssertionError _ => true
  | _ => false
  end.

(** The three [ValueError]s of the checks of [_get_y], by their messages. *)
Definition validation_error (e : exn) : bool :=
  match e with
  | ValueError msg =>
      ((msg =? "Only one input asset allowed.")
       || (msg =? "Invalid input token.")
       || (msg =? "Invalid output token."))%string
  | _ => false
  end.

(** What the stable-swap solve can raise on accepted arguments: the errors
    of its arithmetic and the [ValueError] of [int(out)] on a NaN. *)
Definition solve_error (e : exn) : bool :=
  match e with
  | ZeroDivisionError | OverflowError => true
  | ValueError msg => (msg =? "cannot convert float NaN to integer")%string
  | _ => false
  end.

(** A pool on which the iteration of [_get_D] overflows to NaN. *)
Definition huge_pool : PoolState :=
  {| unit_a := "lovelace"; unit_b := "token";
     reserve_a := 10 ^ 200; reserve_b := 25 * 10 ^ 90; volume_fee := 30 |}.

(** Every exception but the [ValueError] of the third check of [_get_y]. *)
Definition not_invalid_output (e : exn) : bool :=
  match e with
  | ValueError msg => negb (msg =? "Invalid output token.")%string
  | _ => true
  end.

Module PD := AbstractPoolState.

(** Datum objects and decoders of the worked examples: the datum is the
    length of its encoding. *)
Definition length_decoder (raw : string) : result Z :=
  Ok (Z.of_nat (String.length raw)).

Definition failing_decoder (raw : string) : result Z := Raise IndexError.

Definition undecoded : PD.DatumState Z :=
  {| PD.datum_parsed := None; PD.datum_cbor := Some "d879" |}.

Definition decoded : PD.DatumState Z :=
  {| PD.datum_parsed := Some 4; PD.datum_cbor := Some "d879" |}.

Definition blank : PD.DatumState Z :=
  {| PD.datum_parsed := None; PD.datum_cbor := Some "" |}.

(** * Proofs *)

(** ** Rounding: where a quotient of integers stays finite *)

Lemma digits2_pos_bounds (p : positive) :
  2 ^ (Zpos (digits2_pos p) - 1) <= Zpos p < 2 ^ Zpos (digits2_pos p).
Proof.
  induction p as [p IH | p IH | ]; cbn [digits2_pos].
  - rewrite Pos2Z.inj_succ.
    replace (Z.succ (Zpos (digits2_pos p)) - 1) with (Z.succ (Zpos (digits2_pos p) - 1)) by lia.
    rewrite !Z.pow_succ_r by lia. lia.
  - rewrite Pos2Z.inj_succ.
    replace (Z.succ (Zpos (digits2_pos p)) - 1) with (Z.succ (Zpos (digits2_pos p) - 1)) by lia.
    rewrite !Z.pow_succ_r by lia. lia.
  - cbn. lia.
Qed.

Lemma Zdigits2_le (m k : Z) : 0 <= m < 2 ^ k -> 0 <= k -> Zdigits2 m <= k.
Proof.
  intros [Hm Hlt] Hk. destruct m as [ | p | p]; cbn [Zdigits2]; try lia.
  pose proof (digits2_pos_bounds p) as [Hlo _].
  destruct (Z_le_gt_dec (Zpos (digits2_pos p)) k) as [ | Hgt]; [assumption | exfalso].
  assert (2 ^ k <= 2 ^ (Zpos (digits2_pos p) - 1)) by (apply Z.pow_le_mono_r; lia).
  lia.
Qed.

Lemma shr_1_m (r : shr_record) :
  0 <= shr_m r -> shr_m (shr_1 r) = shr_m r / 2.
Proof.
  destruct r as [m b s]; cbn [shr_m shr_1]. intros Hm.
  destruct m as [ | [p | p | ] | p]; cbn [shr_m]; try lia.
  - reflexivity.
  - rewrite Pos2Z.inj_xI. apply (Z.div_unique_pos _ _ _ 1); lia.
  - rewrite Pos2Z.inj_xO. apply (Z.div_unique_pos _ _ _ 0); lia.
  - reflexivity.
Qed.

Lemma iter_shr_1_m (p : positive) : forall r : shr_record,
  0 <= shr_m r -> shr_m (iter_pos shr_1 p r) = shr_m r / 2 ^ Zpos p.
Proof.
  induction p as [p IH | p IH | ]; intros r Hr; cbn [iter_pos].
  - assert (H1 : 0 <= shr_m (shr_1 r)) by (rewrite shr_1_m by assumption; apply Z.div_pos; lia).
    assert (H2 : 0 <= shr_m (iter_pos shr_1 p (shr_1 r)))
      by (rewrite IH by assumption; apply Z.div_pos; [ | apply Z.pow_pos_nonneg]; lia).
    rewrite IH, IH, shr_1_m by assumption.
    rewrite !Z.div_div by (try apply Z.pow_pos_nonneg; lia).
    f_equal. replace (Zpos p~1) with (1 + Zpos p + Zpos p) by lia.
    rewrite !Z.pow_add_r by lia. change (2 ^ 1) with 2. lia.
  - assert (H2 : 0 <= shr_m (iter_pos shr_1 p r))
      by (rewrite IH by assumption; apply Z.div_pos; [ | apply Z.pow_pos_nonneg]; lia).
    rewrite IH, IH by assumption.
    rewrite !Z.div_div by (try apply Z.pow_pos_nonneg; lia).
    f_equal. replace (Zpos p~0) with (Zpos p + Zpos p) by lia.
    rewrite !Z.pow_add_r by lia. lia.
  - rewrite shr_1_m by assumption. reflexivity.
Qed.

Lemma shr_record_of_loc_m (m : Z) (l : location) :
  shr_m (shr_record_of_loc m l) = m.
Proof. destruct l as [ | [ | | ]]; reflexivity. Qed.

Lemma fexp_le (x k : Z) :
  x <= k -> fexp prec emax x <= Z.max (k - 53) (-1074).
Proof. unfold fexp, emin, prec, emax. lia. Qed.

Lemma shr_fexp_bound (m e k : Z) (l : location) :
  0 <= m < 2 ^ (k - e) -> e <= k -> -1074 <= k ->
  0 <= shr_m (fst (shr_fexp prec emax m e l)) < 2 ^ (k - snd (shr_fexp prec emax m e l))
  /\ e <= snd (shr_fexp prec emax m e l) <= Z.max e (Z.max (k - 53) (-1074)).
Proof.
  intros Hm He Hk. unfold shr_fexp, shr.
  assert (Hd : Zdigits2 m + e <= k) by (pose proof (Zdigits2_le m (k - e) Hm); lia).
  pose proof (fexp_le _ _ Hd) as Hf.
  destruct (fexp prec emax (Zdigits2 m + e) - e) as [ | n | n] eqn:En;
    cbn [fst snd]; rewrite ?shr_record_of_loc_m; try (split; lia).
  rewrite iter_shr_1_m by (rewrite shr_record_of_loc_m; lia).
  rewrite shr_record_of_loc_m.
  assert (Hp : 0 < 2 ^ Zpos n) by (apply Z.pow_pos_nonneg; lia).
  split; [split | lia].
  - apply Z.div_pos; lia.
  - apply Z.div_lt_upper_bound; [assumption | ].
    rewrite <- Z.pow_add_r by lia.
    replace (Zpos n + (k - (e + Zpos n))) with (k - e) by lia. lia.
Qed.

Lemma round_nearest_even_bound (m : Z) (l : location) :
  m <= round_nearest_even m l <= m + 1.
Proof.
  destruct l as [ | [ | | ]]; cbn [round_nearest_even]; try lia.
  destruct (Z.even m); lia.
Qed.

Lemma shr_fexp_le (m e k : Z) (l : location) :
  0 <= m <= 2 ^ (k - e) -> e <= k -> -1074 <= k ->
  shr_m (fst (shr_fexp prec emax m e l)) <= 2 ^ (k - snd (shr_fexp prec emax m e l)).
Proof.
  intros Hm He Hk.
  assert (Hm' : 0 <= m < 2 ^ (k + 1 - e)).
  { replace (k + 1 - e) with (Z.succ (k - e)) by lia.
    rewrite Z.pow_succ_r by lia. lia. }
  destruct (shr_fexp_bound m e (k + 1) l Hm') as [_ Hb]; [lia | lia | ].
  revert Hb. unfold shr_fexp, shr.
  destruct (fexp prec emax (Zdigits2 m + e) - e) as [ | n | n] eqn:En;
    cbn [fst snd]; rewrite ?shr_record_of_loc_m; try lia.
  intros Hb.
  rewrite iter_shr_1_m by (rewrite shr_record_of_loc_m; lia).
  rewrite shr_record_of_loc_m.
  assert (Hp : 0 < 2 ^ Zpos n) by (apply Z.pow_pos_nonneg; lia).
  apply Z.div_le_upper_bound; [assumption | ].
  rewrite <- Z.pow_add_r by lia.
  replace (Zpos n + (k - (e + Zpos n))) with (k - e) by lia. lia.
Qed.

(** A value below [2^k] in the range of the format rounds to a finite
    double of the same sign, at most [2^k]. *)
Lemma binary_round_aux_finite (s : bool) (m e k : Z) (l : location) :
  0 <= m < 2 ^ (k - e) -> e <= k -> e <= 971 -> -1074 <= k <= 1023 ->
  finite_upto s k (binary_round_aux prec emax s m e l).
Proof.
  intros Hm He He' Hk. unfold binary_round_aux.
  destruct (shr_fexp_bound m e k l Hm He) as [[H0 H1] [H2 H3]]; [lia | ].
  destruct (shr_fexp prec emax m e l) as [r1 e1]. cbn [fst snd] in *.
  set (m1 := round_nearest_even (shr_m r1) (loc_of_shr_record r1)).
  pose proof (round_nearest_even_bound (shr_m r1) (loc_of_shr_record r1)) as Hr.
  fold m1 in Hr.
  assert (Hm1 : 0 <= m1 <= 2 ^ (k - e1)) by lia.
  assert (Hm1' : 0 <= m1 < 2 ^ (k + 1 - e1)).
  { replace (k + 1 - e1) with (Z.succ (k - e1)) by lia.
    rewrite Z.pow_succ_r by lia. lia. }
  pose proof (shr_fexp_le m1 e1 k loc_Exact Hm1) as Hle.
  destruct (shr_fexp_bound m1 e1 (k + 1) loc_Exact Hm1') as [[H4 H5] [H6 H7]]; [lia | lia | ].
  destruct (shr_fexp prec emax m1 e1 loc_Exact) as [r2 e2]. cbn [fst snd] in *.
  destruct (shr_m r2) as [ | p | p].
  - left; reflexivity.
  - right. replace (e2 <=? emax - prec) with true.
    + exists p, e2. repeat split; lia.
    + symmetry. apply Z.leb_le. unfold emax, prec. lia.
  - lia.
Qed.

Lemma SFdiv_core_int (a b : positive) :
  exists e' l, e' <= 0 /\
    SFdiv_core_binary prec emax (Zpos a) 0 (Zpos b) 0
    = (Zpos a * 2 ^ (- e') / Zpos b, e', l).
Proof.
  unfold SFdiv_core_binary.
  set (e' := Z.min (fexp prec emax (Zdigits2 (Zpos a) + 0 - (Zdigits2 (Zpos b) + 0))) (0 - 0)).
  assert (He : e' <= 0) by (unfold e'; lia).
  assert (Hm : match 0 - 0 - e' with
               | 0 => Zpos a
               | Zpos _ => Z.shiftl (Zpos a) (0 - 0 - e')
               | Zneg _ => 0
               end = Zpos a * 2 ^ (- e')).
  { destruct (0 - 0 - e') as [ | s | s] eqn:Es.
    - replace (- e') with 0 by lia. lia.
    - rewrite Z.shiftl_mul_pow2 by lia. f_equal. f_equal. lia.
    - lia. }
  rewrite Hm.
  destruct (Z.div_eucl (Zpos a * 2 ^ (- e')) (Zpos b)) as [q r] eqn:Eqr.
  exists e', (new_location (Zpos b) r). split; [assumption | ].
  unfold Z.div. rewrite Eqr. reflexivity.
Qed.

Lemma int_true_divide_finite (a b k : Z) :
  0 <= k <= 1023 -> Z.abs a < Z.abs b * 2 ^ k ->
  exists f, int_true_divide a b = Ok f
            /\ finite_upto (xorb (a <? 0) (b <? 0)) k f.
Proof.
  intros Hk Hab. unfold int_true_divide.
  assert (Hp : 0 < 2 ^ k) by (apply Z.pow_pos_nonneg; lia).
  destruct (Z.eqb_spec b 0) as [-> | Hb]; [cbn in Hab; lia | ].
  destruct (Z.eqb_spec a 0) as [-> | Ha].
  { eexists; split; [reflexivity | left; reflexivity]. }
  unfold fdiv, int_mantissa, SFdiv.
  destruct (SFdiv_core_int (Z.to_pos (Z.abs a)) (Z.to_pos (Z.abs b)))
    as (e' & l & He & ->).
  rewrite !Z2Pos.id by lia.
  set (q := Z.abs a * 2 ^ (- e') / Z.abs b).
  assert (Hq : 0 <= q < 2 ^ (k - e')).
  { assert (0 < 2 ^ (- e')) by (apply Z.pow_pos_nonneg; lia).
    split.
    - apply Z.div_pos; nia.
    - apply Z.div_lt_upper_bound; [lia | ].
      replace (k - e') with (k + - e') by lia.
      rewrite Z.pow_add_r by lia. nia. }
  destruct (binary_round_aux_finite (xorb (a <? 0) (b <? 0)) q e' k l Hq)
    as [-> | (m & e & -> & Hbd)]; try lia.
  - eexists; split; [reflexivity | left; reflexivity].
  - eexists; split; [reflexivity | right; exists m, e; auto].
Qed.

(** *** Where a rounding does not underflow to zero *)

Lemma shr_fexp_pos (m e : Z) (l : location) :
  1 <= m -> -1074 <= e ->
  1 <= shr_m (fst (shr_fexp prec emax m e l))
  /\ e <= snd (shr_fexp prec emax m e l).
Proof.
  intros Hm He. unfold shr_fexp, shr.
  destruct (fexp prec emax (Zdigits2 m + e) - e) as [ | n | n] eqn:En;
    cbn [fst snd]; rewrite ?shr_record_of_loc_m; try lia.
  rewrite iter_shr_1_m by (rewrite shr_record_of_loc_m; lia).
  rewrite shr_record_of_loc_m.
  split; [ | lia].
  destruct m as [ | p | p]; try lia. cbn [Zdigits2] in En.
  pose proof (digits2_pos_bounds p) as [Hlo _].
  assert (Hn : Zpos n <= Zpos (digits2_pos p) - 1)
    by (unfold fexp, emin, prec, emax in En; lia).
  apply Z.div_le_lower_bound; [apply Z.pow_pos_nonneg; lia | ].
  rewrite Z.mul_1_r.
  transitivity (2 ^ (Zpos (digits2_pos p) - 1)); [ | assumption].
  apply Z.pow_le_mono_r; lia.
Qed.

(** A mantissa of at least 1 at an exponent of the format rounds to a
    finite or an infinite double of the same sign, at an exponent that is
    not smaller. *)
Lemma binary_round_aux_nonzero (s : bool) (m e : Z) (l : location) :
  1 <= m -> -1074 <= e ->
  (exists m' e', binary_round_aux prec emax s m e l = S754_finite s m' e'
                 /\ e <= e')
  \/ binary_round_aux prec emax s m e l = S754_infinity s.
Proof.
  intros Hm He. unfold binary_round_aux.
  destruct (shr_fexp_pos m e l Hm He) as [H1 H2].
  destruct (shr_fexp prec emax m e l) as [r1 e1]. cbn [fst snd] in *.
  set (m1 := round_nearest_even (shr_m r1) (loc_of_shr_record r1)).
  pose proof (round_nearest_even_bound (shr_m r1) (loc_of_shr_record r1)) as Hr.
  fold m1 in Hr.
  destruct (shr_fexp_pos m1 e1 loc_Exact) as [H3 H4]; [lia | lia | ].
  destruct (shr_fexp prec emax m1 e1 loc_Exact) as [r2 e2]. cbn [fst snd] in *.
  destruct (shr_m r2) as [ | p | p]; try lia.
  destruct (e2 <=? emax - prec); [left | right; reflexivity].
  exists p, e2. split; [reflexivity | lia].
Qed.

Lemma SFdiv_core_int_exponent (a b : positive) :
  exists l,
    SFdiv_core_binary prec emax (Zpos a) 0 (Zpos b) 0
    = (Zpos a * 2 ^ (- Z.min (fexp prec emax (Zdigits2 (Zpos a) - Zdigits2 (Zpos b))) 0)
       / Zpos b,
       Z.min (fexp prec emax (Zdigits2 (Zpos a) - Zdigits2 (Zpos b))) 0, l).
Proof.
  unfold SFdiv_core_binary.
  replace (Zdigits2 (Zpos a) + 0 - (Zdigits2 (Zpos b) + 0))
    with (Zdigits2 (Zpos a) - Zdigits2 (Zpos b)) by lia.
  change (0 - 0) with 0.
  set (e' := Z.min (fexp prec emax (Zdigits2 (Zpos a) - Zdigits2 (Zpos b))) 0).
  assert (He : e' <= 0) by (unfold e'; lia).
  assert (Hm : match 0 - e' with
               | 0 => Zpos a
               | Zpos _ => Z.shiftl (Zpos a) (0 - e')
               | Zneg _ => 0
               end = Zpos a * 2 ^ (- e')).
  { destruct (0 - e') as [ | s | s] eqn:Es.
    - replace (- e') with 0 by lia. lia.
    - rewrite Z.shiftl_mul_pow2 by lia. f_equal. f_equal. lia.
    - lia. }
  rewrite Hm.
  destruct (Z.div_eucl (Zpos a * 2 ^ (- e')) (Zpos b)) as [q r] eqn:Eqr.
  exists (new_location (Zpos b) r).
  unfold Z.div. rewrite Eqr. reflexivity.
Qed.

(** The quotient of two positive ints that is neither tiny nor huge is a
    positive finite double. *)
Lemma int_true_divide_positive (a b k : Z) :
  0 < a -> 0 < b -> 0 <= k <= 1023 -> a < b * 2 ^ k ->
  Zdigits2 b - Zdigits2 a <= 1021 ->
  exists m e,
    int_true_divide a b = Ok (S754_finite false m e)
    /\ Z.min (Zdigits2 a - Zdigits2 b - 53) 0 <= e.
Proof.
  intros Ha Hb Hk Hab Hdig.
  destruct (int_true_divide_finite a b k Hk) as (f & Ef & Hf); [lia | ].
  replace (a <? 0) with false in Hf by (symmetry; apply Z.ltb_ge; lia).
  replace (b <? 0) with false in Hf by (symmetry; apply Z.ltb_ge; lia).
  revert Ef. unfold int_true_divide.
  destruct (Z.eqb_spec b 0) as [ | _]; [lia | ].
  destruct (Z.eqb_spec a 0) as [ | _]; [lia | ].
  unfold fdiv, int_mantissa, SFdiv.
  destruct a as [ | a | a]; try lia. destruct b as [ | b | b]; try lia.
  cbn [Z.abs Z.to_pos Z.ltb Z.compare xorb].
  destruct (SFdiv_core_int_exponent a b) as [l ->].
  set (e' := Z.min (fexp prec emax (Zdigits2 (Zpos a) - Zdigits2 (Zpos b))) 0).
  assert (He' : Z.min (Zdigits2 (Zpos a) - Zdigits2 (Zpos b) - 53) 0 <= e' <= 0)
    by (unfold e', fexp, emin, prec, emax; lia).
  assert (He'' : e' <= Zdigits2 (Zpos a) - Zdigits2 (Zpos b) - 53)
    by (unfold e', fexp, emin, prec, emax in *; lia).
  assert (Hq : 1 <= Zpos a * 2 ^ (- e') / Zpos b).
  { apply Z.div_le_lower_bound; [lia | ]. rewrite Z.mul_1_r.
    cbn [Zdigits2] in *.
    pose proof (digits2_pos_bounds a) as [Hlo _].
    pose proof (digits2_pos_bounds b) as [_ Hhi].
    set (d1 := Zpos (digits2_pos a)) in *. set (d2 := Zpos (digits2_pos b)) in *.
    destruct (Z_le_gt_dec d2 (d1 - 1 - e')) as [Hle | Hgt].
    - transitivity (2 ^ (d1 - 1 - e')).
      + transitivity (2 ^ d2); [lia | apply Z.pow_le_mono_r; lia].
      + replace (d1 - 1 - e') with ((d1 - 1) + - e') by lia.
        rewrite Z.pow_add_r by lia.
        apply Z.mul_le_mono_nonneg_r; [apply Z.pow_nonneg; lia | assumption].
    - exfalso. lia. }
  destruct (binary_round_aux_nonzero false _ e' l Hq) as [(m' & e2 & E & Hle) | E];
    [unfold fexp, emin, prec, emax in *; lia | | ];
    rewrite E; cbn [range_checked]; intros Ef.
  - exists m', e2. split; [reflexivity | lia].
  - discriminate.
Qed.

(** ** The constant-product quote *)

(** The quote on a one-entry bag of the pool's pair, branch by branch. *)
Lemma CP_get_amount_out_single (self : PoolState) (u : string) (q : Z) :
  in_units self u = true ->
  CP.get_amount_out self [(u, q)] =
    if Q.denominator self u q =? 0 then Raise ZeroDivisionError
    else if Q.amount_out self u q =? 0
    then Ok ([(Q.unit_out self u, Q.amount_out self u q)], PInt 0)
    else
      f <- int_true_divide (Q.price_numerator self u q) (Q.price_denominator self u q) ;;
      Ok ([(Q.unit_out self u, Q.amount_out self u q)], PFloat f).
Proof.
  intros Hu. unfold CP.get_amount_out.
  cbn [len List.length Z.of_nat Z.eqb Pos.eqb py_assert bind unit quantity].
  rewrite Hu. cbn [py_assert bind].
  unfold Q.denominator, Q.amount_out, Q.price_numerator, Q.price_denominator,
    Q.numerator, Q.denominator, Q.unit_out, Q.reserve_in, Q.reserve_out,
    Q.fee_modifier, int_floor_divide, Assets_single.
  destruct (u =? unit_a self)%string;
    match goal with |- context [?d =? 0] => destruct (d =? 0) end;
    cbn [bind quantity]; reflexivity.
Qed.

Section QuoteArithmetic.
Variable self : PoolState.
Variable u : string.
Variable q : Z.

Local Abbreviation fm := (Q.fee_modifier self).
Local Abbreviation rin := (Q.reserve_in self u).
Local Abbreviation rout := (Q.reserve_out self u).
Local Abbreviation den := (Q.denominator self u q).

Lemma reserves_nonneg : well_formed self -> 0 <= rin /\ 0 <= rout.
Proof.
  intros [_ Ha Hb _]. unfold rin, rout, Q.reserve_in, Q.reserve_out.
  destruct (u =? unit_a self)%string; split; assumption.
Qed.

Lemma fee_modifier_range : well_formed self -> 0 < fm <= 10000.
Proof. intros [_ _ _ Hf]. unfold fm, Q.fee_modifier. lia. Qed.

(** The numerator of the price impact is [reserve_out * (q * fm)^2]. *)
Lemma price_numerator_square :
  Q.price_numerator self u q = rout * (q * fm) * (q * fm).
Proof.
  unfold Q.price_numerator, Q.numerator, Q.denominator.
  fold fm rin rout. ring.
Qed.

Lemma price_denominator_product :
  Q.price_denominator self u q = rout * q * den * 10000.
Proof. reflexivity. Qed.

(** The price-impact ratio is [q * fm^2 / (den * 10000)], cross-multiplied. *)
Lemma price_ratio_simplified :
  Q.price_numerator self u q * (den * 10000)
  = (q * fm ^ 2) * Q.price_denominator self u q.
Proof.
  rewrite price_numerator_square, price_denominator_product. ring.
Qed.

Lemma amount_out_nonzero_positive :
  well_formed self -> 0 <= q -> Q.amount_out self u q <> 0 ->
  0 < q /\ 0 < rout /\ 0 < den.
Proof.
  intros Hwf Hq Hout.
  destruct (reserves_nonneg Hwf) as [Hin Hro].
  pose proof (fee_modifier_range Hwf) as Hfm.
  unfold Q.amount_out, Q.numerator in Hout. fold fm rout den in Hout.
  assert (Hden : 0 <= den) by (unfold den, Q.denominator; fold fm rin; nia).
  assert (Hnz : q * fm * rout <> 0)
    by (intros E; rewrite E in Hout; apply Hout, Z.div_0_l;
        intros E'; rewrite E', Z.div_0_r in Hout; auto).
  assert (den <> 0) by (intros E; rewrite E, Z.div_0_r in Hout; auto).
  repeat split; nia.
Qed.

(** With every quantity positive the ratio is at most 1, and below 1 when
    the input-side reserve is not empty. *)
Lemma price_ratio_le_1 :
  well_formed self -> 0 < q -> 0 < rout ->
  0 <= Q.price_numerator self u q <= Q.price_denominator self u q
  /\ 0 < Q.price_denominator self u q.
Proof.
  intros Hwf Hq Hro.
  destruct (reserves_nonneg Hwf) as [Hin _].
  pose proof (fee_modifier_range Hwf) as Hfm.
  rewrite price_numerator_square, price_denominator_product.
  assert (Hqf : 0 < q * fm) by nia.
  assert (Hd : q * fm <= den) by (unfold den, Q.denominator; fold fm rin; lia).
  assert (Hle : (q * fm) * (q * fm) <= q * (den * 10000)) by nia.
  assert (Hpos : 0 < q * (den * 10000)) by nia.
  replace (rout * (q * fm) * (q * fm)) with (rout * ((q * fm) * (q * fm))) by ring.
  replace (rout * q * den * 10000) with (rout * (q * (den * 10000))) by ring.
  repeat split; nia.
Qed.

Lemma price_ratio_lt_1 :
  well_formed self -> 0 < q -> 0 < rout -> 0 < rin ->
  0 <= Q.price_numerator self u q < Q.price_denominator self u q.
Proof.
  intros Hwf Hq Hro Hin.
  pose proof (fee_modifier_range Hwf) as Hfm.
  rewrite price_numerator_square, price_denominator_product.
  assert (Hqf : 0 < q * fm) by nia.
  assert (Hd : q * fm < den) by (unfold den, Q.denominator; fold fm rin; lia).
  assert (Hlt : (q * fm) * (q * fm) < q * (den * 10000)) by nia.
  replace (rout * (q * fm) * (q * fm)) with (rout * ((q * fm) * (q * fm))) by ring.
  replace (rout * q * den * 10000) with (rout * (q * (den * 10000))) by ring.
  split; nia.
Qed.
End QuoteArithmetic.

Lemma finite_upto_unit_interval (f : float) :
  finite_upto false 0 f -> in_unit_interval f.
Proof.
  intros [-> | (m & e & -> & He & Hm)];
    unfold in_unit_interval, float_int_compare, cond_Zopp.
  - cbn. auto.
  - destruct (Z.leb_spec 0 e) as [He' | He'].
    + assert (e = 0) by lia. subst e. cbn in Hm.
      assert (m = 1%positive) by lia. subst m. cbn. auto.
    + rewrite Z.sub_0_l in Hm. rewrite Z.mul_0_l, Z.mul_1_l. split.
      * right. reflexivity.
      * destruct (Z.compare_spec (Zpos m) (2 ^ (- e))); auto. lia.
Qed.

(** On a well-formed pool the quote of a one-entry bag of the pair returns
    unless its floor division is by zero. *)
Lemma CP_get_amount_out_returns (self : PoolState) (u : string) (q : Z) :
  well_formed self -> 0 <= q -> in_units self u = true ->
  Q.denominator self u q <> 0 ->
  exists impact,
    CP.get_amount_out self [(u, q)]
    = Ok ([(Q.unit_out self u, Q.amount_out self u q)], impact).
Proof.
  intros Hwf Hq Hu Hden.
  rewrite CP_get_amount_out_single by assumption.
  destruct (Z.eqb_spec (Q.denominator self u q) 0) as [ | _]; [contradiction | ].
  destruct (Z.eqb_spec (Q.amount_out self u q) 0) as [ | Hout]; [eauto | ].
  destruct (amount_out_nonzero_positive self u q Hwf Hq Hout) as (Hq' & Hro & _).
  destruct (price_ratio_le_1 self u q Hwf Hq' Hro) as [[Hn Hle] Hd].
  destruct (int_true_divide_finite
              (Q.price_numerator self u q) (Q.price_denominator self u q) 1)
    as (f & -> & _); [lia | change (2 ^ 1) with 2; lia | ].
  cbn [bind]. eauto.
Qed.

(** C1, as stated, fails: on a pool whose input-side reserve is empty, the
    valid one-entry bag of quantity 0 makes the denominator
    [0 * (10000 - 30) + 0 * 10000 = 0], and the floor division [0 // 0]
    raises [ZeroDivisionError]: no output bag is returned. *)
Lemma C1_zero_over_zero_raises :
  well_formed one_sided_pool
  /\ len [("lovelace", 0)] = 1
  /\ in_units one_sided_pool "lovelace" = true
  /\ Q.reserve_in one_sided_pool "lovelace" = 0
  /\ Q.numerator one_sided_pool "lovelace" 0 = 0
  /\ Q.denominator one_sided_pool "lovelace" 0 = 0
  /\ CP.get_amount_out one_sided_pool [("lovelace", 0)] = Raise ZeroDivisionError.
Proof.
  split; [constructor; cbn; [discriminate | lia | lia | lia] | ].
  repeat split.
Qed.

(** C1, amended: on a pool state within the invariants of the data model and
    a one-entry input bag of its pair, of a quantity that is not negative,
    [get_amount_out] takes [reserve_in] and [reserve_out] by the side of the
    input and, wherever the denominator
    [q * (10000 - volume_fee) + reserve_in * 10000] is not zero, returns a
    bag of the other unit whose quantity is
    [(q * (10000 - volume_fee) * reserve_out)
     / (q * (10000 - volume_fee) + reserve_in * 10000)] rounded down: the
    floor of the quotient, never the nearest or the next integer. *)
Theorem C1_amount_out_is_floor (self : PoolState) (u : string) (q : Z) :
  well_formed self -> 0 <= q -> in_units self u = true ->
  q * (10000 - volume_fee self) + Q.reserve_in self u * 10000 <> 0 ->
  let reserve_in := if (u =? unit_a self)%string then reserve_a self else reserve_b self in
  let reserve_out := if (u =? unit_a self)%string then reserve_b self else reserve_a self in
  let unit_out := if (u =? unit_a self)%string then unit_b self else unit_a self in
  let N := q * (10000 - volume_fee self) * reserve_out in
  let D := q * (10000 - volume_fee self) + reserve_in * 10000 in
  exists amount impact,
    CP.get_amount_out self [(u, q)] = Ok ([(unit_out, amount)], impact)
    /\ unit_out <> u
    /\ amount = N / D
    /\ amount * D <= N < (amount + 1) * D.
Proof.
  intros Hwf Hq Hu Hden; cbv zeta.
  destruct (CP_get_amount_out_returns self u q Hwf Hq Hu Hden) as [impact E].
  exists (Q.amount_out self u q), impact.
  split; [exact E | ]. split; [ | split; [reflexivity | ]].
  - destruct Hwf as [Hne _ _ _]. unfold in_units in Hu.
    destruct (String.eqb_spec u (unit_a self)) as [-> | Hua]; [auto | ].
    destruct (String.eqb_spec u (unit_b self)) as [-> | Hub]; [auto | discriminate].
  - destruct (reserves_nonneg self u Hwf) as [Hin Hro].
    pose proof (fee_modifier_range self Hwf) as Hfm.
    unfold Q.amount_out, Q.numerator, Q.denominator, Q.reserve_in,
      Q.reserve_out, Q.fee_modifier in *.
    set (D := q * (10000 - volume_fee self) + _) in *.
    set (N := q * (10000 - volume_fee self) * _) in *.
    assert (HD : 0 < D) by (unfold D in *; nia).
    pose proof (Z.mul_div_le N D HD).
    pose proof (Z.mul_succ_div_gt N D HD).
    lia.
Qed.

Lemma C1_amount_out_is_floor_witness :
  exists amount impact,
    CP.get_amount_out example_pool [("lovelace", 1000)]
    = Ok ([("token", amount)], impact)
    /\ "token" <> "lovelace"
    /\ amount = 1000 * (10000 - 30) * 1000000 / (1000 * (10000 - 30) + 1000000 * 10000)
    /\ amount * (1000 * (10000 - 30) + 1000000 * 10000)
       <= 1000 * (10000 - 30) * 1000000
       < (amount + 1) * (1000 * (10000 - 30) + 1000000 * 10000).
Proof.
  apply (C1_amount_out_is_floor example_pool "lovelace" 1000).
  - constructor; cbn; [discriminate | lia | lia | lia].
  - lia.
  - reflexivity.
  - cbn. lia.
Defined.

(** The floor of the quote's quotient is monotone in the input quantity. *)
Lemma amount_out_monotone (self : PoolState) (u : string) (q1 q2 : Z) :
  well_formed self -> 0 < Q.reserve_in self u -> 0 <= q1 <= q2 ->
  Q.amount_out self u q1 <= Q.amount_out self u q2.
Proof.
  intros Hwf Hin Hq.
  destruct (reserves_nonneg self u Hwf) as [_ Hro].
  pose proof (fee_modifier_range self Hwf) as Hfm.
  unfold Q.amount_out, Q.numerator, Q.denominator.
  set (fm := Q.fee_modifier self) in *.
  set (rin := Q.reserve_in self u) in *.
  set (rout := Q.reserve_out self u) in *.
  assert (Hd1 : 0 < q1 * fm + rin * 10000) by nia.
  assert (Hd2 : 0 < q2 * fm + rin * 10000) by nia.
  apply Z.div_le_lower_bound; [assumption | ].
  pose proof (Z.mul_div_le (q1 * fm * rout) (q1 * fm + rin * 10000) Hd1) as Hk.
  set (k := q1 * fm * rout / (q1 * fm + rin * 10000)) in *.
  assert (Hk0 : 0 <= k) by (apply Z.div_pos; nia).
  (* k * d1 <= n1 and n1 * d2 <= n2 * d1, hence k * d2 <= n2 *)
  assert (Hcross : (q1 * fm * rout) * (q2 * fm + rin * 10000)
                   <= (q2 * fm * rout) * (q1 * fm + rin * 10000)).
  { assert (q1 * (fm * rout * (rin * 10000)) <= q2 * (fm * rout * (rin * 10000)))
      by (apply Z.mul_le_mono_nonneg_r; nia).
    nia. }
  apply (Z.mul_le_mono_pos_r _ _ (q1 * fm + rin * 10000)); [assumption | ].
  transitivity ((q1 * fm * rout) * (q2 * fm + rin * 10000)); [ | lia].
  replace ((q2 * fm + rin * 10000) * k * (q1 * fm + rin * 10000))
    with (((q1 * fm + rin * 10000) * k) * (q2 * fm + rin * 10000)) by ring.
  apply Z.mul_le_mono_nonneg_r; lia.
Qed.

(** The quote stays below the output-side reserve. *)
Lemma amount_out_below_reserve (self : PoolState) (u : string) (q : Z) :
  well_formed self -> 0 < Q.reserve_in self u -> 0 < Q.reserve_out self u ->
  0 <= q ->
  Q.amount_out self u q < Q.reserve_out self u.
Proof.
  intros Hwf Hin Hro Hq.
  pose proof (fee_modifier_range self Hwf) as Hfm.
  unfold Q.amount_out, Q.numerator, Q.denominator.
  set (fm := Q.fee_modifier self) in *.
  set (rin := Q.reserve_in self u) in *.
  set (rout := Q.reserve_out self u) in *.
  apply Z.div_lt_upper_bound; nia.
Qed.

(** C5: on a pool with positive reserves the amount returned for a positive
    input is strictly below [reserve_out], and for fixed reserves and fee it
    does not decrease when the input quantity grows. *)
Theorem C5_amount_out_bounded_and_monotone
    (self : PoolState) (u : string) (q1 q2 : Z) :
  well_formed self -> 0 < reserve_a self -> 0 < reserve_b self ->
  in_units self u = true -> 0 < q1 <= q2 ->
  exists out1 out2 impact1 impact2,
    CP.get_amount_out self [(u, q1)] = Ok ([(Q.unit_out self u, out1)], impact1)
    /\ CP.get_amount_out self [(u, q2)] = Ok ([(Q.unit_out self u, out2)], impact2)
    /\ out1 < Q.reserve_out self u
    /\ out2 < Q.reserve_out self u
    /\ out1 <= out2.
Proof.
  intros Hwf Ha Hb Hu Hq.
  assert (Hin : 0 < Q.reserve_in self u)
    by (unfold Q.reserve_in; destruct (u =? unit_a self)%string; assumption).
  assert (Hro : 0 < Q.reserve_out self u)
    by (unfold Q.reserve_out; destruct (u =? unit_a self)%string; assumption).
  pose proof (fee_modifier_range self Hwf) as Hfm.
  destruct (CP_get_amount_out_returns self u q1 Hwf) as [i1 E1];
    [lia | assumption | unfold Q.denominator; nia | ].
  destruct (CP_get_amount_out_returns self u q2 Hwf) as [i2 E2];
    [lia | assumption | unfold Q.denominator; nia | ].
  exists (Q.amount_out self u q1), (Q.amount_out self u q2), i1, i2.
  repeat split; try assumption.
  - apply amount_out_below_reserve; auto; lia.
  - apply amount_out_below_reserve; auto; lia.
  - apply amount_out_monotone; auto; lia.
Qed.

Lemma C5_amount_out_bounded_and_monotone_witness :
  exists out1 out2 impact1 impact2,
    CP.get_amount_out example_pool [("token", 1000)]
    = Ok ([("lovelace", out1)], impact1)
    /\ CP.get_amount_out example_pool [("token", 250000)]
       = Ok ([("lovelace", out2)], impact2)
    /\ out1 < 1000000 /\ out2 < 1000000 /\ out1 <= out2.
Proof.
  apply (C5_amount_out_bounded_and_monotone example_pool "token" 1000 250000).
  - constructor; cbn; [discriminate | lia | lia | lia].
  - cbn; lia.
  - cbn; lia.
  - reflexivity.
  - lia.
Defined.

(** C6: when the amount out is not zero, the price impact returned is the
    quotient of the two exact integers
    [reserve_out * q * denominator * fee_modifier - numerator * reserve_in * 10000]
    and [reserve_out * q * denominator * 10000], whose divisor is not zero;
    the one conversion to a float is the rounding of that quotient. *)
Theorem C6_price_impact_is_the_integer_ratio
    (self : PoolState) (u : string) (q : Z) :
  in_units self u = true ->
  Q.amount_out self u q <> 0 ->
  let fee_modifier := 10000 - volume_fee self in
  let reserve_in := Q.reserve_in self u in
  let reserve_out := Q.reserve_out self u in
  let numerator := q * fee_modifier * reserve_out in
  let denominator := q * fee_modifier + reserve_in * 10000 in
  let price_numerator :=
    reserve_out * q * denominator * fee_modifier - numerator * reserve_in * 10000 in
  let price_denominator := reserve_out * q * denominator * 10000 in
  price_denominator <> 0
  /\ CP.get_amount_out self [(u, q)] =
       (price_impact <- int_true_divide price_numerator price_denominator ;;
        Ok ([(Q.unit_out self u, numerator / denominator)], PFloat price_impact)).
Proof.
  intros Hu Hout; cbv zeta.
  rewrite CP_get_amount_out_single by assumption.
  assert (Hden : Q.denominator self u q <> 0)
    by (intros E; apply Hout; unfold Q.amount_out; rewrite E; apply Z.div_0_r).
  assert (Hnum : Q.numerator self u q <> 0)
    by (intros E; apply Hout; unfold Q.amount_out; rewrite E; apply Z.div_0_l; assumption).
  split.
  - unfold Q.numerator, Q.denominator, Q.fee_modifier in *.
    apply Z.neq_mul_0 in Hnum as [Hqf Hro].
    apply Z.neq_mul_0 in Hqf as [Hq _].
    repeat (apply Z.neq_mul_0; split); auto; lia.
  - destruct (Z.eqb_spec (Q.denominator self u q) 0) as [ | _]; [contradiction | ].
    destruct (Z.eqb_spec (Q.amount_out self u q) 0) as [ | _]; [contradiction | ].
    reflexivity.
Qed.

Lemma C6_price_impact_is_the_integer_ratio_witness :
  1000000 * 1000 * (1000 * 9970 + 1000000 * 10000) * 10000 <> 0
  /\ CP.get_amount_out example_pool [("lovelace", 1000)] =
       (price_impact <-
          int_true_divide
            (1000000 * 1000 * (1000 * 9970 + 1000000 * 10000) * 9970
             - 1000 * 9970 * 1000000 * 1000000 * 10000)
            (1000000 * 1000 * (1000 * 9970 + 1000000 * 10000) * 10000) ;;
        Ok ([("token", 1000 * 9970 * 1000000 / (1000 * 9970 + 1000000 * 10000))],
            PFloat price_impact)).
Proof.
  apply (C6_price_impact_is_the_integer_ratio example_pool "lovelace" 1000).
  - reflexivity.
  - vm_compute. discriminate.
Defined.

(** C7: when the floor of numerator over denominator is zero, the quote is
    the zero-quantity bag of the other unit with price impact 0, whatever the
    price-impact quotient would have been: it is not evaluated. *)
Theorem C7_zero_amount_short_circuit (self : PoolState) (u : string) (q : Z) :
  in_units self u = true ->
  Q.denominator self u q <> 0 ->
  Q.numerator self u q / Q.denominator self u q = 0 ->
  exists impact,
    CP.get_amount_out self [(u, q)] = Ok ([(Q.unit_out self u, 0)], impact)
    /\ impact = PInt 0
    /\ py_eq impact (PFloat (S754_zero false)) = true.
Proof.
  intros Hu Hden Hzero.
  rewrite CP_get_amount_out_single by assumption.
  destruct (Z.eqb_spec (Q.denominator self u q) 0) as [ | _]; [contradiction | ].
  unfold Q.amount_out. rewrite Hzero. cbn [Z.eqb].
  exists (PInt 0). repeat split.
Qed.

Lemma C7_zero_amount_short_circuit_witness :
  exists impact,
    CP.get_amount_out example_pool [("lovelace", 1)] = Ok ([("token", 0)], impact)
    /\ impact = PInt 0
    /\ py_eq impact (PFloat (S754_zero false)) = true.
Proof.
  apply (C7_zero_amount_short_circuit example_pool "lovelace" 1).
  - reflexivity.
  - vm_compute. discriminate.
  - reflexivity.
Defined.

Example constant_product_quotes :
  CP.get_amount_out example_pool [("lovelace", 1000)]
  = Ok ([("token", 996)], PFloat (S754_finite false 4579491654311641 (-62)))
  /\ CP.get_amount_out skewed_pool [("token", 55555555)]
     = Ok ([("lovelace", 6555945)],
           PFloat (S754_finite false 7630012686249048 (-57)))
  /\ int_true_divide 1 3 = Ok (S754_finite false 6004799503160661 (-54))
  /\ int_true_divide 0 (-1) = Ok (S754_zero true).
Proof. repeat split; vm_compute; reflexivity. Qed.

(** The price-impact quotient that the short circuit skips would divide by
    zero on a zero input. *)
Lemma zero_input_skips_division_by_zero :
  CP.get_amount_out example_pool [("lovelace", 0)] = Ok ([("token", 0)], PInt 0)
  /\ int_true_divide (Q.price_numerator example_pool "lovelace" 0)
       (Q.price_denominator example_pool "lovelace" 0) = Raise ZeroDivisionError.
Proof. split; reflexivity. Qed.

(** C9, as stated, fails: with no fee, reserves 1 and 2 and an input of
    [2^55], the amount out is 1 and the exact ratio [2^55 / (2^55 + 1)]
    rounds to the double 1.0, which is what the quote returns. *)
Lemma C9_price_impact_reaches_one :
  well_formed thin_pool
  /\ 0 < reserve_a thin_pool /\ 0 < reserve_b thin_pool
  /\ CP.get_amount_out thin_pool [("lovelace", 2 ^ 55)]
     = Ok ([("token", 1)], PFloat one)
  /\ py_eq (PFloat one) (PInt 1) = true
  /\ py_lt (PFloat one) (PInt 1) = false.
Proof.
  split; [constructor; cbn; [discriminate | lia | lia | lia] | ].
  repeat split; vm_compute; reflexivity.
Qed.

(** C9, amended: on a pool with positive reserves and a fee in [0, 10000),
    for a positive input with a nonzero amount out, the exact price-impact
    ratio lies in [0, 1) and is [q * fee_modifier^2 / (denominator * 10000)];
    the quote returns that ratio rounded to a double, which is finite, not
    negative and at most 1. *)
Theorem C9_price_impact_in_unit_interval
    (self : PoolState) (u : string) (q : Z) :
  well_formed self -> 0 < reserve_a self -> 0 < reserve_b self ->
  in_units self u = true -> 0 < q ->
  Q.amount_out self u q <> 0 ->
  exists f,
    CP.get_amount_out self [(u, q)]
    = Ok ([(Q.unit_out self u, Q.amount_out self u q)], PFloat f)
    /\ int_true_divide (Q.price_numerator self u q) (Q.price_denominator self u q)
       = Ok f
    /\ in_unit_interval f
    /\ 0 <= Q.price_numerator self u q < Q.price_denominator self u q
    /\ Q.price_numerator self u q * (Q.denominator self u q * 10000)
       = (q * Q.fee_modifier self ^ 2) * Q.price_denominator self u q
    /\ 0 < Q.denominator self u q * 10000.
Proof.
  intros Hwf Ha Hb Hu Hq Hout.
  assert (Hin : 0 < Q.reserve_in self u)
    by (unfold Q.reserve_in; destruct (u =? unit_a self)%string; assumption).
  assert (Hro : 0 < Q.reserve_out self u)
    by (unfold Q.reserve_out; destruct (u =? unit_a self)%string; assumption).
  pose proof (fee_modifier_range self Hwf) as Hfm.
  pose proof (price_ratio_lt_1 self u q Hwf Hq Hro Hin) as Hratio.
  destruct (int_true_divide_finite
              (Q.price_numerator self u q) (Q.price_denominator self u q) 0)
    as (f & Ef & Hf); [lia | change (2 ^ 0) with 1; lia | ].
  replace (Q.price_numerator self u q <? 0) with false in Hf
    by (symmetry; apply Z.ltb_ge; lia).
  replace (Q.price_denominator self u q <? 0) with false in Hf
    by (symmetry; apply Z.ltb_ge; lia).
  exists f. repeat split; try lia; try assumption.
  - rewrite CP_get_amount_out_single by assumption.
    assert (Hden : Q.denominator self u q <> 0) by (unfold Q.denominator; nia).
    destruct (Z.eqb_spec (Q.denominator self u q) 0) as [ | _]; [contradiction | ].
    destruct (Z.eqb_spec (Q.amount_out self u q) 0) as [ | _]; [contradiction | ].
    rewrite Ef. reflexivity.
  - apply finite_upto_unit_interval, Hf.
  - apply finite_upto_unit_interval, Hf.
  - apply price_ratio_simplified.
  - unfold Q.denominator. nia.
Qed.

Lemma C9_price_impact_in_unit_interval_witness :
  exists f,
    CP.get_amount_out example_pool [("lovelace", 1000)]
    = Ok ([("token", Q.amount_out example_pool "lovelace" 1000)], PFloat f)
    /\ int_true_divide (Q.price_numerator example_pool "lovelace" 1000)
         (Q.price_denominator example_pool "lovelace" 1000) = Ok f
    /\ in_unit_interval f
    /\ 0 <= Q.price_numerator example_pool "lovelace" 1000
       < Q.price_denominator example_pool "lovelace" 1000
    /\ Q.price_numerator example_pool "lovelace" 1000
       * (Q.denominator example_pool "lovelace" 1000 * 10000)
       = (1000 * Q.fee_modifier example_pool ^ 2)
         * Q.price_denominator example_pool "lovelace" 1000
    /\ 0 < Q.denominator example_pool "lovelace" 1000 * 10000.
Proof.
  apply (C9_price_impact_in_unit_interval example_pool "lovelace" 1000).
  - constructor; cbn; [discriminate | lia | lia | lia].
  - cbn; lia.
  - cbn; lia.
  - reflexivity.
  - lia.
  - vm_compute. discriminate.
Defined.

(** ** Which exceptions the arithmetic can raise *)

Create HintDb raises.

Lemma raises_only_bind {A B : Type} (P : exn -> bool)
    (r : result A) (k : A -> result B) :
  raises_only P r -> (forall a, raises_only P (k a)) -> raises_only P (bind r k).
Proof. destruct r as [a | e]; cbn; auto. Qed.

Lemma raises_only_weaken {A : Type} (P P' : exn -> bool) (r : result A) :
  (forall e, P e = true -> P' e = true) -> raises_only P r -> raises_only P' r.
Proof. destruct r; cbn; auto. Qed.

Lemma raises_only_Ok {A : Type} (P : exn -> bool) (a : A) : raises_only P (Ok a).
Proof. exact Logic.I. Qed.

Lemma range_checked_raises (f : float) :
  raises_only arithmetic_error (range_checked f).
Proof. destruct f; cbn; auto. Qed.

Lemma float_of_int_raises (n : Z) : raises_only arithmetic_error (float_of_int n).
Proof. apply range_checked_raises. Qed.

Lemma int_true_divide_raises (a b : Z) :
  raises_only arithmetic_error (int_true_divide a b).
Proof.
  unfold int_true_divide.
  destruct (b =? 0); [reflexivity | ].
  destruct (a =? 0); [exact Logic.I | apply range_checked_raises].
Qed.

Lemma float_pow_raises (x : float) (n : positive) :
  raises_only arithmetic_error (float_pow x n).
Proof. destruct x; cbn; auto using range_checked_raises. Qed.

Lemma to_float_raises (x : num) : raises_only arithmetic_error (to_float x).
Proof. destruct x; cbn [to_float]; [apply float_of_int_raises | exact Logic.I]. Qed.

#[local] Hint Resolve raises_only_Ok range_checked_raises float_of_int_raises
  int_true_divide_raises float_pow_raises to_float_raises : raises.

Lemma float_binop_raises (op : float -> float -> float) (x y : num) :
  raises_only arithmetic_error (float_binop op x y).
Proof.
  unfold float_binop.
  apply raises_only_bind; [auto with raises | intros a].
  apply raises_only_bind; [auto with raises | intros b]. exact Logic.I.
Qed.

Lemma py_add_raises (x y : num) : raises_only arithmetic_error (py_add x y).
Proof. destruct x, y; cbn [py_add]; auto using float_binop_raises with raises. Qed.

Lemma py_sub_raises (x y : num) : raises_only arithmetic_error (py_sub x y).
Proof. destruct x, y; cbn [py_sub]; auto using float_binop_raises with raises. Qed.

Lemma py_mul_raises (x y : num) : raises_only arithmetic_error (py_mul x y).
Proof. destruct x, y; cbn [py_mul]; auto using float_binop_raises with raises. Qed.

Lemma py_truediv_raises (x y : num) : raises_only arithmetic_error (py_truediv x y).
Proof.
  assert (Hmixed : forall x y,
    raises_only arithmetic_error
      (a <- to_float x ;; b <- to_float y ;;
       if is_zero b then Raise ZeroDivisionError else Ok (PFloat (fdiv a b)))).
  { intros x' y'.
    apply raises_only_bind; [auto with raises | intros a].
    apply raises_only_bind; [auto with raises | intros b].
    destruct (is_zero b); [reflexivity | exact Logic.I]. }
  destruct x, y; cbn [py_truediv]; try apply Hmixed.
  apply raises_only_bind; [auto with raises | intros f; exact Logic.I].
Qed.

Lemma py_pow_raises (x : num) (n : positive) :
  raises_only arithmetic_error (py_pow x n).
Proof.
  destruct x; cbn [py_pow]; [exact Logic.I | ].
  apply raises_only_bind; [auto with raises | intros r; exact Logic.I].
Qed.

Lemma lift2_raises (op : num -> num -> result num) (x y : expr) :
  (forall a b, raises_only arithmetic_error (op a b)) ->
  raises_only arithmetic_error x -> raises_only arithmetic_error y ->
  raises_only arithmetic_error (lift2 op x y).
Proof.
  intros Hop Hx Hy. unfold lift2.
  apply raises_only_bind; [assumption | intros a].
  apply raises_only_bind; [assumption | intros b]. apply Hop.
Qed.

Lemma int_raises (n : Z) : raises_only arithmetic_error (int n).
Proof. exact Logic.I. Qed.

Lemma val_raises (x : num) : raises_only arithmetic_error (val x).
Proof. exact Logic.I. Qed.

Lemma py_int_raises (x : num) : raises_only interpreter_error (py_int x).
Proof. destruct x as [n | [s | s | | s m e]]; cbn; auto. Qed.

Lemma arithmetic_is_interpreter (e : exn) :
  arithmetic_error e = true -> interpreter_error e = true.
Proof. destruct e; cbn; auto; discriminate. Qed.

Lemma interpreter_not_InvalidInput (e : exn) :
  interpreter_error e = true -> InvalidInput e = false.
Proof.
  destruct e as [msg | msg | | | ]; cbn; try reflexivity; try discriminate.
  intros H. apply String.eqb_eq in H. subst msg. reflexivity.
Qed.

#[local] Hint Resolve py_add_raises py_sub_raises py_mul_raises
  py_truediv_raises py_pow_raises int_raises val_raises : raises.

(** Expressions built from the operators raise arithmetic errors only. *)
Ltac arithmetic_only :=
  repeat first
    [ apply lift2_raises; [auto with raises | | ]
    | apply raises_only_bind; [ | intros ? ]
    | solve [auto with raises] ].

(** ** Stage 1 of the stable-swap solve: [_get_D] *)

Lemma D_next_raises (self : PoolState) (D : num) :
  raises_only arithmetic_error (I.D_next self D).
Proof. unfold I.D_next. arithmetic_only. Qed.

Lemma converged_raises (self : PoolState) (D D' : num) :
  raises_only arithmetic_error (I.converged D D').
Proof. unfold I.converged. arithmetic_only. Qed.

(** One round of the loop of [_get_D] is one [D_next] and one convergence
    test. *)
Lemma _get_D_loop_round (i : nat) (self : PoolState) (D : num) :
  SS._get_D_loop (Datatypes.S i) self I.N_COINS I.Ann (I.S self) D =
    match I.D_next self D with
    | Raise e => Raise e
    | Ok D' =>
        match I.converged D D' with
        | Raise e => Raise e
        | Ok c =>
            if c then Ok D'
            else SS._get_D_loop i self I.N_COINS I.Ann (I.S self) D'
        end
    end.
Proof.
  cbn [SS._get_D_loop]. unfold I.D_next, I.converged.
  destruct (val D ** 3 / int (I.N_COINS ^ I.N_COINS * reserve_a self * reserve_b self))%py
    as [D_P | e]; cbn [bind]; [ | reflexivity].
  destruct (val D * (int (I.Ann * I.S self) + val D_P * int I.N_COINS)
            / (int (I.Ann - 1) * val D + int (I.N_COINS + 1) * val D_P))%py
    as [D' | e]; cbn [bind]; [ | reflexivity].
  destruct (val D' - val D)%py as [d | e]; cbn [bind]; reflexivity.
Qed.

Lemma _get_D_loop_iterates (self : PoolState) (i : nat) :
  forall (k : nat) (D : num),
    (k + Datatypes.S i = 256)%nat ->
    I.iterates self k D ->
    exists k' D',
      (k' < 256)%nat /\ I.iterates self k' D'
      /\ I.last_iteration self k' D'
           (SS._get_D_loop (Datatypes.S i) self I.N_COINS I.Ann (I.S self) D).
Proof.
  induction i as [ | i IH]; intros k D Hk Hit; rewrite _get_D_loop_round.
  - exists k, D. split; [lia | split; [assumption | ]].
    unfold I.last_iteration.
    destruct (I.D_next self D) as [D' | e]; [ | reflexivity].
    destruct (I.converged D D') as [c | e]; [ | reflexivity].
    cbn [SS._get_D_loop]. destruct c; split; auto; right; lia.
  - destruct (I.D_next self D) as [D' | e] eqn:En.
    + destruct (I.converged D D') as [[ | ] | e] eqn:Ec.
      * exists k, D. split; [lia | split; [assumption | ]].
        unfold I.last_iteration. rewrite En, Ec. auto.
      * apply (IH (Datatypes.S k) D'); [lia | ].
        eapply I.iterates_step; eassumption.
      * exists k, D. split; [lia | split; [assumption | ]].
        unfold I.last_iteration. rewrite En, Ec. reflexivity.
    + exists k, D. split; [lia | split; [assumption | ]].
      unfold I.last_iteration. rewrite En. reflexivity.
Qed.

Lemma last_iteration_raises (self : PoolState) (k : nat) (D : num)
    (r : result num) :
  I.last_iteration self k D r -> raises_only arithmetic_error r.
Proof.
  unfold I.last_iteration.
  pose proof (D_next_raises self D) as Hn.
  destruct (I.D_next self D) as [D' | e]; [ | intros ->; exact Hn].
  pose proof (converged_raises self D D') as Hc.
  destruct (I.converged D D') as [c | e]; [intros [-> _]; exact Logic.I | ].
  intros ->; exact Hc.
Qed.


Lemma _get_D_raises (self : PoolState) :
  raises_only arithmetic_error (SS._get_D self).
Proof.
  unfold SS._get_D.
  destruct (reserve_a self + reserve_b self =? 0); [exact Logic.I | ].
  destruct (_get_D_loop_iterates self 255 0 (PInt (I.S self)))
    as (k & D & _ & _ & Hlast); [reflexivity | constructor | ].
  eapply last_iteration_raises. exact Hlast.
Qed.

Example _get_D_balanced :
  SS._get_D example_pool = Ok (PFloat (S754_finite false 8589934592000000 (-32)))
  /\ 8589934592000000 = 2000000 * 2 ^ 32.
Proof. split; vm_compute; reflexivity. Qed.

(** With one empty side the first [D_P] divides the integer [D**3] by the
    integer 0. *)
Lemma _get_D_loop_one_sided (i : nat) (self : PoolState) (N_COINS Ann S n : Z) :
  N_COINS ^ N_COINS * reserve_a self * reserve_b self = 0 ->
  SS._get_D_loop (Datatypes.S i) self N_COINS Ann S (PInt n)
  = Raise ZeroDivisionError.
Proof.
  intros H0. cbn [SS._get_D_loop]. rewrite H0. reflexivity.
Qed.

(** C10: when exactly one of the two reserves is zero, [_get_D] raises a
    division by zero; and since [_get_y] computes [D] before it looks at its
    arguments, every call of [_get_y] on such a pool raises it, whatever the
    input bag and the output unit. *)
Theorem C10_one_sided_pool_divides_by_zero (self : PoolState) :
  reserve_a self + reserve_b self <> 0 ->
  reserve_a self * reserve_b self = 0 ->
  SS._get_D self = Raise ZeroDivisionError
  /\ forall (in_assets : Assets) (out_unit : string),
       SS._get_y self in_assets out_unit = Raise ZeroDivisionError.
Proof.
  intros HS Hprod.
  assert (HD : SS._get_D self = Raise ZeroDivisionError).
  { unfold SS._get_D.
    destruct (Z.eqb_spec (reserve_a self + reserve_b self) 0) as [ | _];
      [contradiction | ].
    apply _get_D_loop_one_sided. rewrite <- Z.mul_assoc, Hprod. apply Z.mul_0_r. }
  split; [exact HD | ].
  intros in_assets out_unit. unfold SS._get_y. rewrite HD. reflexivity.
Qed.

Lemma C10_one_sided_pool_divides_by_zero_witness :
  SS._get_D one_sided_pool = Raise ZeroDivisionError
  /\ forall (in_assets : Assets) (out_unit : string),
       SS._get_y one_sided_pool in_assets out_unit = Raise ZeroDivisionError.
Proof.
  apply (C10_one_sided_pool_divides_by_zero one_sided_pool).
  - cbn. lia.
  - reflexivity.
Defined.

(** ** Stage 2 and the stable-swap quote *)

Lemma py_truediv_is_float (x y r : num) :
  py_truediv x y = Ok r -> exists f, r = PFloat f.
Proof.
  destruct x as [a | f1], y as [b | f2]; cbn [py_truediv to_float bind];
    try (destruct (int_true_divide a b); cbn [bind]; intros [= <-]; eauto);
    repeat match goal with
           | |- context [float_of_int ?n] => destruct (float_of_int n); cbn [bind]
           | |- context [is_zero ?f] => destruct (is_zero f)
           end;
    intros [= <-]; eauto.
Qed.

Lemma lift2_truediv_is_float (x y : expr) (r : num) :
  lift2 py_truediv x y = Ok r -> exists f, r = PFloat f.
Proof.
  unfold lift2. destruct x as [a | e]; [ | discriminate].
  destruct y as [b | e]; [ | discriminate]. apply py_truediv_is_float.
Qed.

(** After at least one round the loop of [_get_y] holds a float. *)
Lemma _get_y_loop_is_float (i : nat) :
  forall (c b D out r : num),
    SS._get_y_loop (Datatypes.S i) c b D out = Ok r -> exists f, r = PFloat f.
Proof.
  induction i as [ | i IH]; intros c b D out r; cbn [SS._get_y_loop].
  - destruct ((val out ** 2 + val c) / (int 2 * val out + val b - val D))%py
      as [out' | e] eqn:E; cbn [bind]; [ | discriminate].
    apply lift2_truediv_is_float in E. destruct E as [f ->].
    destruct (val (PFloat f) - val out)%py; cbn [bind]; [ | discriminate].
    destruct (py_lt _ _); intros [= <-]; eauto.
  - destruct ((val out ** 2 + val c) / (int 2 * val out + val b - val D))%py
      as [out' | e] eqn:E; cbn [bind]; [ | discriminate].
    pose proof E as E'. apply lift2_truediv_is_float in E'. destruct E' as [f ->].
    destruct (val (PFloat f) - val out)%py; cbn [bind]; [ | discriminate].
    destruct (py_lt _ _); [intros [= <-]; eauto | ].
    apply IH.
Qed.

(** Case analysis on the first computation of a sequence that returned. *)
Ltac step_bind pat :=
  match goal with
  | |- bind ?v _ = Ok _ -> _ => destruct v as pat; cbn [bind]; [ | discriminate]
  end.

(** What [_get_y] returns is the bag of the requested unit holding the
    truncation of the float its loop ended on. *)
Lemma _get_y_projection (self : PoolState) (in_assets : Assets)
    (out_unit : string) (projected : Assets) :
  SS._get_y self in_assets out_unit = Ok projected ->
  exists (D c b : num) (f : float) (y : Z),
    SS._get_D self = Ok D
    /\ SS._get_y_loop 256 c b D D = Ok (PFloat f)
    /\ int_of_float f = Ok y
    /\ projected = [(out_unit, y)].
Proof.
  unfold SS._get_y.
  destruct (SS._get_D self) as [D | e]; cbn [bind]; [ | discriminate].
  step_bind ipattern:([ | e]).
  destruct (quantity in_assets) as [q | e]; cbn [bind]; [ | discriminate].
  step_bind ipattern:([in_quantity | e]).
  destruct (unit in_assets) as [u | e]; cbn [bind]; [ | discriminate].
  step_bind ipattern:([in_reserve | e]).
  step_bind ipattern:([c | e]).
  step_bind ipattern:([b | e]).
  destruct (SS._get_y_loop 256 c b D D) as [out | e] eqn:Eloop; cbn [bind]; [ | discriminate].
  pose proof Eloop as Ef. apply _get_y_loop_is_float in Ef. destruct Ef as [f ->].
  cbn [py_int].
  destruct (int_of_float f) as [y | e] eqn:Ey; cbn [bind]; [ | discriminate].
  intros [= <-]. exists D, c, b, f, y. auto.
Qed.

(** On a float that is not negative, [int] rounds down. *)
Lemma int_of_float_floor (f : float) (y : Z) :
  int_of_float f = Ok y ->
  float_int_compare f 0 <> Some Lt ->
  is_floor_of f y.
Proof.
  destruct f as [s | s | | s m e]; unfold int_of_float; try discriminate.
  - intros [= <-] _. unfold is_floor_of. cbn. auto.
  - intros Hy.
    assert (Ey : y = cond_Zopp s (if 0 <=? e then Zpos m * 2 ^ e
                                  else Zpos m / 2 ^ (- e))) by congruence.
    clear Hy. subst y. unfold is_floor_of, float_int_compare.
    destruct s; unfold cond_Zopp.
    + intros Hneg. exfalso. apply Hneg.
      destruct (Z.leb_spec 0 e); f_equal; rewrite ?Z.mul_0_l; try reflexivity.
      apply Z.compare_lt_iff, Z.mul_neg_pos; [lia | ].
      apply Z.pow_pos_nonneg; lia.
    + intros _. destruct (Z.leb_spec 0 e) as [He | He].
      * rewrite Z.compare_refl. split; [auto | ].
        f_equal. apply Z.compare_lt_iff. lia.
      * assert (Hp : 0 < 2 ^ (- e)) by (apply Z.pow_pos_nonneg; lia).
        pose proof (Z.mul_div_le (Zpos m) (2 ^ (- e)) Hp).
        pose proof (Z.mul_succ_div_gt (Zpos m) (2 ^ (- e)) Hp).
        split.
        -- destruct (Z.compare_spec (Zpos m) (Zpos m / 2 ^ (- e) * 2 ^ (- e)));
             auto; lia.
        -- f_equal. apply Z.compare_lt_iff. lia.
Qed.

(** The output unit and reserve that the stable-swap quote selects are those
    of the side opposite to the input. *)
Lemma stable_out_unit (self : PoolState) (u : string) :
  in_units self u = true ->
  (if (u =? unit_b self)%string then unit_a self else unit_b self)
  = Q.unit_out self u.
Proof.
  unfold in_units, Q.unit_out.
  destruct (String.eqb_spec u (unit_a self)) as [Ea | Ha];
    destruct (String.eqb_spec u (unit_b self)) as [Eb | Hb];
    cbn; congruence.
Qed.

Lemma stable_out_reserve (self : PoolState) (u : string) :
  in_units self u = true ->
  (if (Q.unit_out self u =? unit_b self)%string
   then reserve_b self else reserve_a self)
  = Q.reserve_out self u.
Proof.
  unfold in_units, Q.unit_out, Q.reserve_out.
  destruct (String.eqb_spec u (unit_a self)) as [-> | Ha].
  - rewrite String.eqb_refl. reflexivity.
  - destruct (String.eqb_spec u (unit_b self)) as [-> | Hb]; [ | discriminate].
    intros _. destruct (String.eqb_spec (unit_a self) (unit_b self)); congruence.
Qed.

(** One round of the loop of [_get_y] is one [out_next] and one convergence
    test. *)
Lemma _get_y_loop_round (i : nat) (c b D out : num) :
  SS._get_y_loop (Datatypes.S i) c b D out =
    match Y.out_next c b D out with
    | Raise e => Raise e
    | Ok out' =>
        match I.converged out out' with
        | Raise e => Raise e
        | Ok stop => if stop then Ok out' else SS._get_y_loop i c b D out'
        end
    end.
Proof.
  cbn [SS._get_y_loop]. unfold Y.out_next, I.converged.
  destruct ((val out ** 2 + val c) / (int 2 * val out + val b - val D))%py
    as [out' | e]; cbn [bind]; [ | reflexivity].
  destruct (val out' - val out)%py as [d | e]; cbn [bind]; reflexivity.
Qed.

Lemma _get_y_loop_iterates (c b D : num) (i : nat) :
  forall (k : nat) (out : num),
    (k + Datatypes.S i = 256)%nat ->
    Y.iterates c b D k out ->
    exists k' out',
      (k' < 256)%nat /\ Y.iterates c b D k' out'
      /\ Y.last_iteration c b D k' out' (SS._get_y_loop (Datatypes.S i) c b D out).
Proof.
  induction i as [ | i IH]; intros k out Hk Hit; rewrite _get_y_loop_round.
  - exists k, out. split; [lia | split; [assumption | ]].
    unfold Y.last_iteration.
    destruct (Y.out_next c b D out) as [out' | e]; [ | reflexivity].
    destruct (I.converged out out') as [stop | e]; [ | reflexivity].
    cbn [SS._get_y_loop]. destruct stop; split; auto; right; lia.
  - destruct (Y.out_next c b D out) as [out' | e] eqn:En.
    + destruct (I.converged out out') as [[ | ] | e] eqn:Ec.
      * exists k, out. split; [lia | split; [assumption | ]].
        unfold Y.last_iteration. rewrite En, Ec. auto.
      * apply (IH (Datatypes.S k) out'); [lia | ].
        eapply Y.iterates_step; eassumption.
      * exists k, out. split; [lia | split; [assumption | ]].
        unfold Y.last_iteration. rewrite En, Ec. reflexivity.
    + exists k, out. split; [lia | split; [assumption | ]].
      unfold Y.last_iteration. rewrite En. reflexivity.
Qed.

Lemma unit_out_in_units (self : PoolState) (u : string) :
  in_units self u = true -> in_units self (Q.unit_out self u) = true.
Proof.
  intros _. unfold in_units, Q.unit_out.
  destruct (u =? unit_a self)%string; rewrite String.eqb_refl;
    [apply orb_true_r | reflexivity].
Qed.

(** An exception of [_get_y] is the exception of the quote. *)
Lemma stable_quote_passes_exceptions (self : PoolState) (u : string) (q : Z)
    (e : exn) :
  in_units self u = true ->
  SS._get_y self [(u, q)] (Q.unit_out self u) = Raise e ->
  SS.get_amount_out self [(u, q)] = Raise e.
Proof.
  intros Hu Ey. unfold SS.get_amount_out. cbn [unit bind].
  rewrite (stable_out_unit self u Hu), Ey. reflexivity.
Qed.

(** C3, as stated, fails: on a pool with one empty side the stable-swap
    quote of a valid one-entry bag returns no pair; [_get_D] divides by zero
    and the quote ends in that exception. *)
Lemma C3_one_sided_pool_returns_no_quote :
  well_formed one_sided_pool
  /\ len [("lovelace", 5)] = 1
  /\ in_units one_sided_pool "lovelace" = true
  /\ SS._get_D one_sided_pool = Raise ZeroDivisionError
  /\ SS.get_amount_out one_sided_pool [("lovelace", 5)] = Raise ZeroDivisionError.
Proof.
  split; [constructor; cbn; [discriminate | lia | lia | lia] | ].
  repeat split.
Qed.

(** C3, amended: on a pool and a one-entry bag [u: q] of its pair, when the
    arithmetic of stage 2 goes through, that is [D] is computed,
    [in_quantity = q * (10000 - volume_fee) / 10000],
    [in_reserve = reserve_in + in_quantity],
    [c = D**3 / (N_COINS**2 * Ann * in_reserve)] and
    [b = in_reserve + D / Ann] are computed, and the loop from [out = D]
    ends on a float [f] that is finite and not negative, then: [_get_y]
    returns the one-entry bag of the opposite unit holding the floor of [f],
    the absolute post-trade reserve level; [f] is the [out_next] of the last
    of at most 256 iterations, the first to move [out] by less than 1 unless
    it is the 256th; the quote is the pair of the one-entry bag of the
    opposite unit, holding the current reserve of that unit minus that
    floor, and the price impact, the integer 0, which equals 0.0; and the
    opposite unit is the input's unit only on a pool whose two units
    coincide. *)
Theorem C3_stable_quote_is_reserve_minus_projection
    (self : PoolState) (u : string) (q : Z)
    (D in_quantity in_reserve c b : num) (f : float) (y : Z) :
  in_units self u = true ->
  SS._get_D self = Ok D ->
  (int (q * (10000 - volume_fee self)) / int 10000)%py = Ok in_quantity ->
  (int (Q.reserve_in self u) + val in_quantity)%py = Ok in_reserve ->
  (val D ** 3 / (int (I.N_COINS ^ 2 * I.Ann) * val in_reserve))%py = Ok c ->
  (val in_reserve + val D / int I.Ann)%py = Ok b ->
  SS._get_y_loop 256 c b D D = Ok (PFloat f) ->
  int_of_float f = Ok y ->
  float_int_compare f 0 <> Some Lt ->
  let out_unit := if (u =? unit_a self)%string then unit_b self else unit_a self in
  let out_reserve :=
    if (u =? unit_a self)%string then reserve_b self else reserve_a self in
  SS._get_y self [(u, q)] out_unit = Ok [(out_unit, y)]
  /\ is_floor_of f y
  /\ (exists (k : nat) (out : num),
        (k < 256)%nat /\ Y.iterates c b D k out
        /\ Y.last_iteration c b D k out (Ok (PFloat f)))
  /\ SS.get_amount_out self [(u, q)] = Ok ([(out_unit, out_reserve - y)], PInt 0)
  /\ py_eq (PInt 0) (PFloat (S754_zero false)) = true
  /\ (out_unit =? u)%string = (unit_a self =? unit_b self)%string.
Proof.
  intros Hu HD Hinq Hres Hc Hb Hloop Hy Hpos; cbv zeta.
  fold (Q.unit_out self u). fold (Q.reserve_out self u).
  assert (Hgy : SS._get_y self [(u, q)] (Q.unit_out self u)
                = Ok [(Q.unit_out self u, y)]).
  { unfold SS._get_y. rewrite HD. cbn [bind].
    change (1 <? len [(u, q)]) with false. cbn [unit quantity bind].
    rewrite Hu, (unit_out_in_units self u Hu). cbn [negb bind].
    rewrite Hinq. cbn [bind].
    change (I.N_COINS ^ 2 * I.Ann) with (2 ^ 2 * (SS.amp * 2 ^ 2)) in Hc.
    change I.Ann with (SS.amp * 2 ^ 2) in Hb.
    unfold Q.reserve_in in Hres.
    destruct (u =? unit_a self)%string;
      rewrite Hres; cbn [bind]; rewrite Hc; cbn [bind]; rewrite Hb; cbn [bind];
      rewrite Hloop; cbn [bind py_int]; rewrite Hy; reflexivity. }
  split; [exact Hgy | split; [ | split; [ | split; [ | split]]]].
  - apply int_of_float_floor; assumption.
  - destruct (_get_y_loop_iterates c b D 255 0 D) as (k & out & Hk & Hit & Hlast);
      [reflexivity | constructor | ].
    rewrite Hloop in Hlast. eauto.
  - unfold SS.get_amount_out. cbn [unit bind].
    rewrite (stable_out_unit self u Hu), Hgy. cbn [bind quantity unit setitem].
    rewrite String.eqb_refl, (stable_out_reserve self u Hu). reflexivity.
  - reflexivity.
  - unfold Q.unit_out, in_units in *.
    destruct (String.eqb_spec u (unit_a self)) as [Ea | Ha].
    + rewrite Ea. apply String.eqb_sym.
    + destruct (String.eqb_spec u (unit_b self)) as [Eb | Hb'];
        [rewrite Eb; reflexivity | discriminate].
Qed.

Lemma C3_stable_quote_is_reserve_minus_projection_witness :
  SS._get_y example_pool [("lovelace", 1000)] "token" = Ok [("token", 999003)]
  /\ is_floor_of (S754_finite false 8581370483757633 (-33)) 999003
  /\ (exists (k : nat) (out : num),
        (k < 256)%nat
        /\ Y.iterates (PFloat (S754_finite false 6983544073225661 (-20)))
             (PFloat (S754_finite false 8655764987401557 (-33)))
             (PFloat (S754_finite false 8589934592000000 (-32))) k out
        /\ Y.last_iteration (PFloat (S754_finite false 6983544073225661 (-20)))
             (PFloat (S754_finite false 8655764987401557 (-33)))
             (PFloat (S754_finite false 8589934592000000 (-32))) k out
             (Ok (PFloat (S754_finite false 8581370483757633 (-33)))))
  /\ SS.get_amount_out example_pool [("lovelace", 1000)]
     = Ok ([("token", 1000000 - 999003)], PInt 0)
  /\ py_eq (PInt 0) (PFloat (S754_zero false)) = true
  /\ ("token" =? "lovelace")%string = ("lovelace" =? "token")%string.
Proof.
  apply (C3_stable_quote_is_reserve_minus_projection example_pool "lovelace" 1000
           (PFloat (S754_finite false 8589934592000000 (-32)))
           (PFloat (S754_finite false 8769704743141376 (-43)))
           (PFloat (S754_finite false 8598498756788224 (-33)))
           (PFloat (S754_finite false 6983544073225661 (-20)))
           (PFloat (S754_finite false 8655764987401557 (-33)))
           (S754_finite false 8581370483757633 (-33)) 999003).
  - reflexivity.
  - vm_compute. reflexivity.
  - vm_compute. reflexivity.
  - vm_compute. reflexivity.
  - vm_compute. reflexivity.
  - vm_compute. reflexivity.
  - vm_compute. reflexivity.
  - vm_compute. reflexivity.
  - vm_compute. discriminate.
Defined.

Example stable_quote_of_skewed_pool :
  SS._get_D skewed_pool = Ok (PFloat (S754_finite false 4637059334471471 (-22)))
  /\ SS.get_amount_out skewed_pool [("lovelace", 1000000)]
     = Ok ([("token", 1061131)], PInt 0)
  /\ SS.get_amount_out skewed_pool [("token", 55555555)]
     = Ok ([("lovelace", 49939135)], PInt 0).
Proof. repeat split; vm_compute; reflexivity. Qed.

Example stable_quote_of_example_pool :
  SS._get_y example_pool [("lovelace", 1000)] "token" = Ok [("token", 999003)]
  /\ SS.get_amount_out example_pool [("lovelace", 1000)]
     = Ok ([("token", 997)], PInt 0).
Proof. split; vm_compute; reflexivity. Qed.

(** ** Which inputs are rejected *)

Lemma _get_y_loop_raises (i : nat) :
  forall (c b D out : num),
    raises_only arithmetic_error (SS._get_y_loop i c b D out).
Proof.
  induction i as [ | i IH]; intros c b D out; cbn [SS._get_y_loop].
  - exact Logic.I.
  - apply raises_only_bind; [arithmetic_only | intros out'].
    apply raises_only_bind; [arithmetic_only | intros d].
    destruct (py_lt _ _); [exact Logic.I | apply IH].
Qed.

Lemma out_unit_in_units (self : PoolState) (u : string) :
  in_units self (if (u =? unit_b self)%string then unit_a self else unit_b self)
  = true.
Proof.
  unfold in_units. destruct (u =? unit_b self)%string.
  - rewrite String.eqb_refl. reflexivity.
  - rewrite String.eqb_refl. apply orb_true_r.
Qed.

(** Once [D] is there and the arguments are accepted, [_get_y] raises
    nothing but what its arithmetic raises. *)
Lemma _get_y_accepted_raises (self : PoolState) (u out_unit : string) (q : Z) :
  in_units self u = true -> in_units self out_unit = true ->
  raises_only interpreter_error (SS._get_y self [(u, q)] out_unit).
Proof.
  intros Hu Hout. unfold SS._get_y.
  apply raises_only_bind;
    [eapply raises_only_weaken; [apply arithmetic_is_interpreter | apply _get_D_raises]
    | intros D].
  change (1 <? len [(u, q)]) with false. cbn [unit quantity bind].
  rewrite Hu, Hout. cbn [negb bind].
  apply raises_only_bind;
    [eapply raises_only_weaken; [apply arithmetic_is_interpreter | arithmetic_only]
    | intros in_quantity].
  apply raises_only_bind;
    [eapply raises_only_weaken; [apply arithmetic_is_interpreter | ]
    | intros in_reserve].
  { destruct (u =? unit_a self)%string; arithmetic_only. }
  apply raises_only_bind;
    [eapply raises_only_weaken; [apply arithmetic_is_interpreter | arithmetic_only]
    | intros c].
  apply raises_only_bind;
    [eapply raises_only_weaken; [apply arithmetic_is_interpreter | arithmetic_only]
    | intros b].
  apply raises_only_bind;
    [eapply raises_only_weaken; [apply arithmetic_is_interpreter | apply _get_y_loop_raises]
    | intros out].
  apply raises_only_bind; [apply py_int_raises | intros n; exact Logic.I].
Qed.

Lemma raises_only_not_InvalidInput {A : Type} (r : result A) :
  raises_only interpreter_error r -> raises_InvalidInput r = false.
Proof.
  destruct r as [a | e]; cbn; [reflexivity | apply interpreter_not_InvalidInput].
Qed.

(** The constant-product quote rejects a bag exactly when it is not a
    one-entry bag of the pool's pair. *)
Lemma CP_rejects_exactly (self : PoolState) (asset : Assets) :
  raises_InvalidInput (CP.get_amount_out self asset) = true
  <-> ~ (exists u q, asset = [(u, q)] /\ in_units self u = true).
Proof.
  destruct asset as [ | [u q] [ | entry rest]].
  - split; [intros _ (u & q & E & _); discriminate | reflexivity].
  - destruct (in_units self u) eqn:Hu.
    + split; [ | intros H; exfalso; apply H; eauto].
      rewrite raises_only_not_InvalidInput; [discriminate | ].
      rewrite CP_get_amount_out_single by assumption.
      destruct (_ =? 0); [reflexivity | ].
      destruct (_ =? 0); [exact Logic.I | ].
      apply raises_only_bind; [ | intros f; exact Logic.I].
      eapply raises_only_weaken;
        [apply arithmetic_is_interpreter | apply int_true_divide_raises].
    + split; [ | intros _; unfold CP.get_amount_out; cbn; rewrite Hu; reflexivity].
      intros _ (u' & q' & [= <- <-] & Hu'). congruence.
  - split; [intros _ (u' & q' & E & _); discriminate | intros _].
    unfold CP.get_amount_out.
    replace (len ((u, q) :: entry :: rest) =? 1) with false; [reflexivity | ].
    symmetry. apply Z.eqb_neq. unfold len. cbn [List.length]. lia.
Qed.

(** The stable-swap quote rejects a bag exactly when [D] could be computed
    and the bag, not empty, has a second entry or a first unit outside the
    pair. *)
Lemma SS_rejects_exactly (self : PoolState) (asset : Assets) :
  raises_InvalidInput (SS.get_amount_out self asset) = true
  <-> (exists D, SS._get_D self = Ok D)
      /\ exists u q rest,
           asset = (u, q) :: rest /\ (rest <> [] \/ in_units self u = false).
Proof.
  destruct asset as [ | [u q] rest].
  - split; [discriminate | intros (_ & u & q & rest & E & _); discriminate].
  - unfold SS.get_amount_out. cbn [unit bind].
    set (out_unit := if (u =? unit_b self)%string then unit_a self else unit_b self).
    pose proof (out_unit_in_units self u) as Hout. fold out_unit in Hout.
    pose proof (_get_D_raises self) as HD.
    destruct (SS._get_D self) as [D | e] eqn:ED.
    + destruct rest as [ | entry rest].
      * destruct (in_units self u) eqn:Hu.
        -- split.
           ++ rewrite raises_only_not_InvalidInput; [discriminate | ].
              apply raises_only_bind;
                [apply _get_y_accepted_raises; assumption | intros out_asset].
              destruct out_asset as [ | [k v] tl]; [reflexivity | exact Logic.I].
           ++ intros (_ & u' & q' & rest' & [= <- <- <-] & [Hr | Hr]); congruence.
        -- split; [intros _ | intros _; unfold SS._get_y; rewrite ED; cbn; rewrite Hu; reflexivity].
           split; [eauto | exists u, q, []; auto].
      * split; [intros _ | intros _].
        -- split; [eauto | exists u, q, (entry :: rest); split; [reflexivity | left; discriminate]].
        -- unfold SS._get_y. rewrite ED. cbn [bind].
           replace (1 <? len ((u, q) :: entry :: rest)) with true; [reflexivity | ].
           symmetry. apply Z.ltb_lt. unfold len. cbn [List.length]. lia.
    + split.
      * unfold SS._get_y. rewrite ED. cbn [bind raises_InvalidInput].
        cbn in HD. destruct e; cbn in *; discriminate.
      * intros ((D & [=]) & _).
Qed.

Lemma InvalidInput_by_origin (e : exn) :
  InvalidInput e = assertion_error e || validation_error e.
Proof. destruct e; reflexivity. Qed.

Lemma arithmetic_is_solve_error (e : exn) :
  arithmetic_error e = true -> solve_error e = true.
Proof. destruct e; cbn; auto; discriminate. Qed.

Lemma solve_error_is_interpreter (e : exn) :
  solve_error e = true -> interpreter_error e = true.
Proof. destruct e; cbn; auto. Qed.

Lemma py_int_solve_errors (x : num) : raises_only solve_error (py_int x).
Proof. destruct x as [n | [s | s | | s m e]]; cbn; auto. Qed.

(** On a one-entry bag of the pair the constant-product quote raises nothing
    but what its two divisions raise. *)
Lemma CP_accepted_raises (self : PoolState) (u : string) (q : Z) :
  in_units self u = true ->
  raises_only arithmetic_error (CP.get_amount_out self [(u, q)]).
Proof.
  intros Hu. rewrite CP_get_amount_out_single by assumption.
  destruct (_ =? 0); [reflexivity | ].
  destruct (_ =? 0); [exact Logic.I | ].
  apply raises_only_bind; [apply int_true_divide_raises | intros f; exact Logic.I].
Qed.

Lemma CP_raises_only (self : PoolState) (asset : Assets) :
  raises_only (fun e => assertion_error e || arithmetic_error e)
    (CP.get_amount_out self asset).
Proof.
  destruct asset as [ | [u q] [ | entry rest]].
  - reflexivity.
  - destruct (in_units self u) eqn:Hu.
    + eapply raises_only_weaken; [ | apply CP_accepted_raises; assumption].
      intros e He. cbn beta. rewrite He. apply orb_true_r.
    + unfold CP.get_amount_out. cbn. rewrite Hu. reflexivity.
  - unfold CP.get_amount_out.
    replace (len ((u, q) :: entry :: rest) =? 1) with false; [reflexivity | ].
    symmetry. apply Z.eqb_neq. unfold len. cbn [List.length]. lia.
Qed.

(** Once the arguments are accepted, [_get_y] raises nothing but what its
    arithmetic and [int(out)] raise. *)
Lemma _get_y_accepted_solve_errors
    (self : PoolState) (u out_unit : string) (q : Z) :
  in_units self u = true -> in_units self out_unit = true ->
  raises_only solve_error (SS._get_y self [(u, q)] out_unit).
Proof.
  intros Hu Hout. unfold SS._get_y.
  apply raises_only_bind;
    [eapply raises_only_weaken; [apply arithmetic_is_solve_error | apply _get_D_raises]
    | intros D].
  change (1 <? len [(u, q)]) with false. cbn [unit quantity bind].
  rewrite Hu, Hout. cbn [negb bind].
  apply raises_only_bind;
    [eapply raises_only_weaken; [apply arithmetic_is_solve_error | arithmetic_only]
    | intros in_quantity].
  apply raises_only_bind;
    [eapply raises_only_weaken; [apply arithmetic_is_solve_error | ]
    | intros in_reserve].
  { destruct (u =? unit_a self)%string; arithmetic_only. }
  apply raises_only_bind;
    [eapply raises_only_weaken; [apply arithmetic_is_solve_error | arithmetic_only]
    | intros c].
  apply raises_only_bind;
    [eapply raises_only_weaken; [apply arithmetic_is_solve_error | arithmetic_only]
    | intros b].
  apply raises_only_bind;
    [eapply raises_only_weaken; [apply arithmetic_is_solve_error | apply _get_y_loop_raises]
    | intros out].
  apply raises_only_bind; [apply py_int_solve_errors | intros n; exact Logic.I].
Qed.

Lemma SS_accepted_raises (self : PoolState) (u : string) (q : Z) :
  in_units self u = true ->
  raises_only solve_error (SS.get_amount_out self [(u, q)]).
Proof.
  intros Hu. unfold SS.get_amount_out. cbn [unit bind].
  set (out_unit := if (u =? unit_b self)%string then unit_a self else unit_b self).
  pose proof (out_unit_in_units self u) as Hout. fold out_unit in Hout.
  pose proof (_get_y_accepted_solve_errors self u out_unit q Hu Hout) as Hy.
  destruct (SS._get_y self [(u, q)] out_unit) as [projected | e] eqn:Ey;
    cbn [bind]; [ | exact Hy].
  apply _get_y_projection in Ey. destruct Ey as (D & c & b & f & y & _ & _ & _ & ->).
  exact Logic.I.
Qed.

(** Where [D] is computed, the checks of [_get_y] reject a bag with a second
    entry, and a one-entry bag of a unit outside the pair, each with its own
    message. *)
Lemma SS_rejects_with (self : PoolState) (D : num) (u : string) (q : Z)
    (rest : Assets) :
  SS._get_D self = Ok D ->
  rest <> [] \/ in_units self u = false ->
  SS.get_amount_out self ((u, q) :: rest)
  = Raise (ValueError (match rest with
                       | [] => "Invalid input token."
                       | _ :: _ => "Only one input asset allowed."
                       end)).
Proof.
  intros ED Hbad. unfold SS.get_amount_out. cbn [unit bind].
  unfold SS._get_y. rewrite ED. cbn [bind].
  destruct rest as [ | entry rest].
  - destruct Hbad as [Hr | Hu]; [congruence | ].
    change (1 <? len [(u, q)]) with false. cbn [unit bind]. rewrite Hu. reflexivity.
  - replace (1 <? len ((u, q) :: entry :: rest)) with true; [reflexivity | ].
    symmetry. apply Z.ltb_lt. unfold len. cbn [List.length]. lia.
Qed.

Lemma SS_raises_only (self : PoolState) (asset : Assets) :
  raises_only (fun e => validation_error e || interpreter_error e)
    (SS.get_amount_out self asset).
Proof.
  destruct asset as [ | [u q] rest]; [reflexivity | ].
  destruct (SS._get_D self) as [D | e] eqn:ED.
  - destruct rest as [ | entry rest]; [destruct (in_units self u) eqn:Hu | ].
    + eapply raises_only_weaken; [ | apply SS_accepted_raises; assumption].
      intros e He. cbn beta. rewrite (solve_error_is_interpreter e He).
      apply orb_true_r.
    + rewrite (SS_rejects_with self D u q [] ED); [reflexivity | auto].
    + rewrite (SS_rejects_with self D u q (entry :: rest) ED);
        [reflexivity | left; discriminate].
  - pose proof (_get_D_raises self) as HD. rewrite ED in HD. cbn in HD.
    unfold SS.get_amount_out. cbn [unit bind]. unfold SS._get_y.
    rewrite ED. cbn [bind raises_only].
    rewrite (arithmetic_is_interpreter e HD). apply orb_true_r.
Qed.


(** The stable-swap quote fails on the empty bag before any validation. *)
Lemma empty_bag_quotes :
  CP.get_amount_out example_pool []
  = Raise (AssertionError "Asset should only have one token.")
  /\ SS.get_amount_out example_pool [] = Raise IndexError.
Proof. split; reflexivity. Qed.

(** Where [D] is computed, both quotes reject a two-entry bag and a bag of a
    foreign unit, and the rejections of the stable-swap quote are the
    [ValueError]s of the checks of [_get_y]. *)
Example rejected_bags :
  CP.get_amount_out example_pool [("lovelace", 5); ("token", 7)]
  = Raise (AssertionError "Asset should only have one token.")
  /\ CP.get_amount_out example_pool [("other", 5)]
     = Raise (AssertionError (CP.invalid_asset_msg example_pool))
  /\ SS.get_amount_out example_pool [("lovelace", 5); ("token", 7)]
     = Raise (ValueError "Only one input asset allowed.")
  /\ SS.get_amount_out example_pool [("other", 5)]
     = Raise (ValueError "Invalid input token.").
Proof. repeat split; vm_compute; reflexivity. Qed.

(** On reserves of [10^200] and [25 * 10^90] the iteration of [_get_D]
    overflows to NaN, and the stable-swap quote of a valid one-entry bag ends
    in the [ValueError] of [int(out)]: an exception of the class of the
    rejections that is not one of them. The constant-product quote of the
    same bag returns. *)
Example nan_is_not_a_rejection :
  in_units huge_pool "lovelace" = true
  /\ SS._get_D huge_pool = Ok (PFloat S754_nan)
  /\ SS.get_amount_out huge_pool [("lovelace", 1)]
     = Raise (ValueError "cannot convert float NaN to integer")
  /\ rejection_class (ValueError "cannot convert float NaN to integer") = true
  /\ InvalidInput (ValueError "cannot convert float NaN to integer") = false
  /\ solve_error (ValueError "cannot convert float NaN to integer") = true
  /\ CP.get_amount_out huge_pool [("lovelace", 1)] = Ok ([("token", 0)], PInt 0).
Proof. repeat split; vm_compute; reflexivity. Qed.


(** ** The empty pool *)

Lemma _get_D_empty (self : PoolState) :
  reserve_a self = 0 -> reserve_b self = 0 -> SS._get_D self = Ok (PInt 0).
Proof. intros Ha Hb. unfold SS._get_D. rewrite Ha, Hb. reflexivity. Qed.

(** On an empty pool a zero input makes [in_reserve] the float 0.0, by which
    [c] is then divided, whatever the fee and the units. *)
Lemma _get_y_empty_zero_input (self : PoolState) (u out_unit : string) :
  reserve_a self = 0 -> reserve_b self = 0 ->
  in_units self u = true -> in_units self out_unit = true ->
  SS._get_y self [(u, 0)] out_unit = Raise ZeroDivisionError.
Proof.
  intros Ha Hb Hu Hout. unfold SS._get_y.
  rewrite (_get_D_empty self Ha Hb). cbn [bind].
  change (1 <? len [(u, 0)]) with false. cbn [unit quantity bind].
  rewrite Hu, Hout, Ha, Hb. cbn [negb bind]. rewrite Z.mul_0_l.
  destruct (u =? unit_a self)%string; reflexivity.
Qed.

Lemma Zdigits2_pos (a : Z) : 0 < a -> 1 <= Zdigits2 a.
Proof. destruct a; cbn [Zdigits2]; lia. Qed.

(** With [D = 0] and [c = 0.0] the first round of the loop lands on 0.0 and
    stops there. *)
Lemma _get_y_loop_empty (m : positive) (e : Z) :
  SS._get_y_loop 256 (PFloat (S754_zero false)) (PFloat (S754_finite false m e))
    (PInt 0) (PInt 0)
  = Ok (PFloat (S754_zero false)).
Proof. reflexivity. Qed.

(** On an empty pool a positive input below the range of a double is
    quoted: the projected reserve is 0. *)
Lemma _get_y_empty_positive_input (self : PoolState) (u out_unit : string) (q : Z) :
  reserve_a self = 0 -> reserve_b self = 0 ->
  0 <= volume_fee self < 10000 ->
  in_units self u = true -> in_units self out_unit = true ->
  0 < q -> q * (10000 - volume_fee self) < 10000 * 2 ^ 1023 ->
  SS._get_y self [(u, q)] out_unit = Ok [(out_unit, 0)].
Proof.
  intros Ha Hb Hfee Hu Hout Hq Hrange. unfold SS._get_y.
  rewrite (_get_D_empty self Ha Hb). cbn [bind].
  change (1 <? len [(u, q)]) with false. cbn [unit quantity bind].
  rewrite Hu, Hout, Ha, Hb. cbn [negb bind].
  set (a := q * (10000 - volume_fee self)) in *.
  assert (Hapos : 0 < a) by (unfold a; nia).
  pose proof (Zdigits2_pos a Hapos) as Hda.
  destruct (int_true_divide_positive a 10000 1023) as (m & e & Ediv & He);
    [lia | lia | lia | lia | change (Zdigits2 10000) with 14; lia | ].
  change (Zdigits2 10000) with 14 in He.
  assert (Hinq : (int a / int 10000)%py = Ok (PFloat (S754_finite false m e)))
    by (unfold lift2, int; cbn [bind py_truediv]; rewrite Ediv; reflexivity).
  rewrite Hinq. cbn [bind].
  assert (Hres : (int 0 + val (PFloat (S754_finite false m e)))%py
                 = Ok (PFloat (S754_finite false m e))) by reflexivity.
  assert (Hprod : exists z,
             (int (2 ^ 2 * (SS.amp * 2 ^ 2)) * val (PFloat (S754_finite false m e)))%py
             = Ok (PFloat z)
             /\ ((exists m' e', z = S754_finite false m' e') \/ z = S754_infinity false)).
  { exists (binary_round_aux prec emax false
              (Zpos (5277655813324800 * m)) (-42 + e) loc_Exact).
    split; [reflexivity | ].
    destruct (binary_round_aux_nonzero false (Zpos (5277655813324800 * m))
                (-42 + e) loc_Exact) as [(m' & e' & E & _) | E];
      [lia | lia | rewrite E; eauto | rewrite E; auto]. }
  destruct Hprod as (z & Ez & Hz).
  assert (Hc : (val (PInt 0) ** 3
                / (int (2 ^ 2 * (SS.amp * 2 ^ 2)) * val (PFloat (S754_finite false m e))))%py
               = Ok (PFloat (S754_zero false))).
  { unfold lift2 at 1. cbn [val bind py_pow]. rewrite Ez. cbn [bind].
    destruct Hz as [(m' & e' & ->) | ->]; reflexivity. }
  assert (Hb' : (val (PFloat (S754_finite false m e)) + val (PInt 0) / int (SS.amp * 2 ^ 2))%py
                = Ok (PFloat (S754_finite false m e))) by reflexivity.
  destruct (u =? unit_a self)%string;
    rewrite Hres; cbn [bind]; rewrite Hc; cbn [bind]; rewrite Hb'; cbn [bind];
    rewrite _get_y_loop_empty; reflexivity.
Qed.

(** C8: on the pool with both reserves 0, [_get_D] returns 0, but [_get_y]
    on the one-entry bag of quantity 0 raises a division by zero ([c] is
    [0 / 0.0]); on a positive quantity it returns the bag of projected
    reserve 0. *)
Theorem C8_empty_pool_zero_input :
  SS._get_D empty_pool = Ok (PInt 0)
  /\ SS._get_y empty_pool [("lovelace", 0)] "token" = Raise ZeroDivisionError
  /\ SS._get_y empty_pool [("lovelace", 5)] "token" = Ok [("token", 0)].
Proof. repeat split. Qed.

(** * Further properties of the quotes *)

(** ** The constant-product quote: fee, invariant, edges *)

(** [x * r / (x + R)] rounded down does not decrease with [x]. *)
Lemma floor_ratio_monotone (x1 x2 r R : Z) :
  0 <= x1 <= x2 -> 0 <= r -> 0 < R ->
  x1 * r / (x1 + R) <= x2 * r / (x2 + R).
Proof.
  intros Hx Hr HR.
  apply Z.div_le_lower_bound; [lia | ].
  pose proof (Z.mul_div_le (x1 * r) (x1 + R) ltac:(lia)) as Hk.
  set (k := x1 * r / (x1 + R)) in *.
  assert (Hk0 : 0 <= k) by (apply Z.div_pos; nia).
  assert (Hcross : (x1 * r) * (x2 + R) <= (x2 * r) * (x1 + R)).
  { assert (x1 * (r * R) <= x2 * (r * R)) by (apply Z.mul_le_mono_nonneg_r; nia).
    nia. }
  apply (Z.mul_le_mono_pos_r _ _ (x1 + R)); [lia | ].
  transitivity ((x1 * r) * (x2 + R)); [ | lia].
  replace ((x2 + R) * k * (x1 + R)) with (((x1 + R) * k) * (x2 + R)) by ring.
  apply Z.mul_le_mono_nonneg_r; lia.
Qed.

(** X1: on a pool with positive reserves, raising the fee never raises the
    quote: for the same input the amount returned at the higher fee is at
    most the amount returned at the lower fee, and both quotes return. *)
Theorem fee_never_raises_the_quote
    (self : PoolState) (u : string) (q fee : Z) :
  well_formed self -> 0 < reserve_a self -> 0 < reserve_b self ->
  in_units self u = true -> 0 <= q ->
  volume_fee self <= fee < 10000 ->
  exists out out' impact impact',
    CP.get_amount_out self [(u, q)] = Ok ([(Q.unit_out self u, out)], impact)
    /\ CP.get_amount_out (with_fee self fee) [(u, q)]
       = Ok ([(Q.unit_out self u, out')], impact')
    /\ out' <= out.
Proof.
  intros Hwf Ha Hb Hu Hq Hfee.
  assert (Hwf' : well_formed (with_fee self fee))
    by (destruct Hwf; constructor; cbn; lia || assumption).
  assert (Hin : 0 < Q.reserve_in self u)
    by (unfold Q.reserve_in; destruct (u =? unit_a self)%string; assumption).
  assert (Hro : 0 < Q.reserve_out self u)
    by (unfold Q.reserve_out; destruct (u =? unit_a self)%string; assumption).
  pose proof (fee_modifier_range self Hwf) as Hfm.
  destruct (CP_get_amount_out_returns self u q Hwf Hq Hu) as [i E];
    [unfold Q.denominator; nia | ].
  destruct (CP_get_amount_out_returns (with_fee self fee) u q Hwf' Hq Hu) as [i' E'].
  { unfold Q.denominator, Q.fee_modifier. cbn [volume_fee with_fee].
    change (Q.reserve_in (with_fee self fee) u) with (Q.reserve_in self u). nia. }
  exists (Q.amount_out self u q), (Q.amount_out (with_fee self fee) u q), i, i'.
  split; [exact E | split; [exact E' | ]].
  unfold Q.amount_out, Q.numerator, Q.denominator, Q.fee_modifier.
  cbn [volume_fee with_fee].
  change (Q.reserve_in (with_fee self fee) u) with (Q.reserve_in self u).
  change (Q.reserve_out (with_fee self fee) u) with (Q.reserve_out self u).
  unfold Q.fee_modifier in Hfm.
  apply floor_ratio_monotone; nia.
Qed.

Lemma fee_never_raises_the_quote_witness :
  exists out out' impact impact',
    CP.get_amount_out example_pool [("lovelace", 1000)]
    = Ok ([("token", out)], impact)
    /\ CP.get_amount_out (with_fee example_pool 100) [("lovelace", 1000)]
       = Ok ([("token", out')], impact')
    /\ out' <= out.
Proof.
  apply (fee_never_raises_the_quote example_pool "lovelace" 1000 100).
  - constructor; cbn; [discriminate | lia | lia | lia].
  - cbn; lia.
  - cbn; lia.
  - reflexivity.
  - lia.
  - cbn; lia.
Defined.

(** X2: the quote leaves the product of the reserves no smaller: the amount
    returned is between 0 and [reserve_out], and the reserves after the
    trade, [reserve_in + q] and [reserve_out - amount], multiply to at least
    [reserve_in * reserve_out]. *)
Theorem quote_keeps_the_product
    (self : PoolState) (u : string) (q : Z) :
  well_formed self -> in_units self u = true -> 0 <= q ->
  Q.denominator self u q <> 0 ->
  exists out impact,
    CP.get_amount_out self [(u, q)] = Ok ([(Q.unit_out self u, out)], impact)
    /\ 0 <= out <= Q.reserve_out self u
    /\ Q.reserve_in self u * Q.reserve_out self u
       <= (Q.reserve_in self u + q) * (Q.reserve_out self u - out).
Proof.
  intros Hwf Hu Hq Hden.
  destruct (CP_get_amount_out_returns self u q Hwf Hq Hu Hden) as [i E].
  exists (Q.amount_out self u q), i. split; [exact E | ].
  destruct (reserves_nonneg self u Hwf) as [Hin Hro].
  pose proof (fee_modifier_range self Hwf) as Hfm.
  unfold Q.amount_out, Q.numerator, Q.denominator in *.
  set (fm := Q.fee_modifier self) in *.
  set (rin := Q.reserve_in self u) in *.
  set (rout := Q.reserve_out self u) in *.
  assert (Hd : 0 < q * fm + rin * 10000) by nia.
  pose proof (Z.mul_div_le (q * fm * rout) (q * fm + rin * 10000) Hd) as Hk.
  set (k := q * fm * rout / (q * fm + rin * 10000)) in *.
  assert (Hk0 : 0 <= k) by (apply Z.div_pos; nia).
  assert (Hkr : k <= rout).
  { apply Z.div_le_upper_bound; [assumption | ]. nia. }
  split; [lia | ].
  (* k * (q + rin) <= q * rout, from k * (q*fm + rin*10000) <= q*fm*rout *)
  assert (Hfree : k * (q + rin) <= q * rout).
  { apply (Z.mul_le_mono_pos_r _ _ fm); [lia | ].
    transitivity ((q * fm + rin * 10000) * k); [ | lia].
    assert (k * (rin * fm) <= k * (rin * 10000))
      by (apply Z.mul_le_mono_nonneg_l; nia).
    lia. }
  lia.
Qed.

Lemma quote_keeps_the_product_witness :
  exists out impact,
    CP.get_amount_out example_pool [("lovelace", 1000)]
    = Ok ([("token", out)], impact)
    /\ 0 <= out <= 1000000
    /\ 1000000 * 1000000 <= (1000000 + 1000) * (1000000 - out).
Proof.
  apply (quote_keeps_the_product example_pool "lovelace" 1000).
  - constructor; cbn; [discriminate | lia | lia | lia].
  - reflexivity.
  - lia.
  - vm_compute. discriminate.
Defined.

(** X3: on a well-formed pool the quote of a one-entry bag of the pair fails
    only by dividing by zero, and it does so exactly when the input quantity
    is 0 and the reserve of the input side is 0; in every other case it
    returns. *)
Theorem quote_fails_exactly_on_zero_over_zero
    (self : PoolState) (u : string) (q : Z) :
  well_formed self -> in_units self u = true -> 0 <= q ->
  if (q =? 0) && (Q.reserve_in self u =? 0)
  then CP.get_amount_out self [(u, q)] = Raise ZeroDivisionError
  else exists out impact,
         CP.get_amount_out self [(u, q)] = Ok ([(Q.unit_out self u, out)], impact).
Proof.
  intros Hwf Hu Hq.
  destruct (reserves_nonneg self u Hwf) as [Hin _].
  pose proof (fee_modifier_range self Hwf) as Hfm.
  destruct (Z.eqb_spec q 0) as [-> | Hq0];
    [destruct (Z.eqb_spec (Q.reserve_in self u) 0) as [Hr | Hr] | ]; cbn [andb].
  - rewrite CP_get_amount_out_single by assumption.
    unfold Q.denominator. rewrite Hr. reflexivity.
  - destruct (CP_get_amount_out_returns self u 0 Hwf Hq Hu) as [i E];
      [unfold Q.denominator; lia | eauto].
  - destruct (CP_get_amount_out_returns self u q Hwf Hq Hu) as [i E];
      [unfold Q.denominator; nia | eauto].
Qed.

Lemma quote_fails_exactly_on_zero_over_zero_witness :
  CP.get_amount_out one_sided_pool [("lovelace", 0)] = Raise ZeroDivisionError.
Proof.
  apply (quote_fails_exactly_on_zero_over_zero one_sided_pool "lovelace" 0).
  - constructor; cbn; [discriminate | lia | lia | lia].
  - reflexivity.
  - lia.
Defined.

(** X4: a zero input, and any input against an empty output side, is quoted
    at zero with price impact 0, on any pool on which the quotient is
    defined. *)
Theorem nothing_in_or_nothing_left_quotes_zero
    (self : PoolState) (u : string) (q : Z) :
  in_units self u = true ->
  Q.denominator self u q <> 0 ->
  q = 0 \/ Q.reserve_out self u = 0 ->
  CP.get_amount_out self [(u, q)] = Ok ([(Q.unit_out self u, 0)], PInt 0).
Proof.
  intros Hu Hden Hzero.
  rewrite CP_get_amount_out_single by assumption.
  destruct (Z.eqb_spec (Q.denominator self u q) 0) as [ | _]; [contradiction | ].
  assert (E : Q.amount_out self u q = 0).
  { unfold Q.amount_out, Q.numerator.
    destruct Hzero as [-> | ->]; rewrite ?Z.mul_0_l, ?Z.mul_0_r; apply Z.div_0_l;
      assumption. }
  rewrite E. reflexivity.
Qed.

Lemma nothing_in_or_nothing_left_quotes_zero_witness :
  CP.get_amount_out one_sided_pool [("token", 3)] = Ok ([("lovelace", 0)], PInt 0).
Proof.
  apply (nothing_in_or_nothing_left_quotes_zero one_sided_pool "token" 3).
  - reflexivity.
  - vm_compute. discriminate.
  - right. reflexivity.
Defined.

(** ** Naming the two assets the other way round *)

Lemma in_units_mirror (self : PoolState) (u : string) :
  in_units (mirror self) u = in_units self u.
Proof. unfold in_units. cbn [mirror unit_a unit_b]. apply orb_comm. Qed.

(** The sides chosen for an input of the pair do not depend on the naming. *)
Lemma sides_mirror (self : PoolState) (u : string) :
  unit_a self <> unit_b self -> in_units self u = true ->
  Q.reserve_in (mirror self) u = Q.reserve_in self u
  /\ Q.reserve_out (mirror self) u = Q.reserve_out self u
  /\ Q.unit_out (mirror self) u = Q.unit_out self u.
Proof.
  intros Hne Hu. unfold Q.reserve_in, Q.reserve_out, Q.unit_out, in_units in *.
  cbn [mirror unit_a unit_b reserve_a reserve_b].
  destruct (String.eqb_spec u (unit_a self)) as [Ea | Ha];
    destruct (String.eqb_spec u (unit_b self)) as [Eb | Hb];
    auto; try congruence; discriminate.
Qed.

(** X5: the constant-product quote does not depend on which of the two
    assets the pool calls [a]: for an input of the pair, the pool with units
    and reserves exchanged gives the same quote. *)
Theorem constant_product_quote_mirror
    (self : PoolState) (u : string) (q : Z) :
  unit_a self <> unit_b self -> in_units self u = true ->
  CP.get_amount_out (mirror self) [(u, q)] = CP.get_amount_out self [(u, q)].
Proof.
  intros Hne Hu.
  destruct (sides_mirror self u Hne Hu) as (Ein & Eout & Eunit).
  rewrite !CP_get_amount_out_single by (rewrite ?in_units_mirror; assumption).
  unfold Q.amount_out, Q.price_numerator, Q.price_denominator, Q.numerator,
    Q.denominator.
  rewrite Ein, Eout, Eunit. reflexivity.
Qed.

Lemma constant_product_quote_mirror_witness :
  CP.get_amount_out (mirror skewed_pool) [("token", 55555555)]
  = CP.get_amount_out skewed_pool [("token", 55555555)].
Proof.
  apply (constant_product_quote_mirror skewed_pool "token" 55555555).
  - cbn. discriminate.
  - reflexivity.
Defined.

Lemma bind_ext {A B : Type} (r : result A) (k k' : A -> result B) :
  (forall a, k a = k' a) -> bind r k = bind r k'.
Proof. intros H. destruct r; cbn; auto. Qed.

Lemma _get_D_loop_mirror (self : PoolState) (N_COINS Ann S : Z) (i : nat) :
  forall D : num,
    SS._get_D_loop i (mirror self) N_COINS Ann S D
    = SS._get_D_loop i self N_COINS Ann S D.
Proof.
  induction i as [ | i IH]; intros D; cbn [SS._get_D_loop]; [reflexivity | ].
  replace (N_COINS ^ N_COINS * reserve_a (mirror self) * reserve_b (mirror self))
    with (N_COINS ^ N_COINS * reserve_a self * reserve_b self)
    by (cbn [mirror reserve_a reserve_b]; ring).
  apply bind_ext; intros D_P. apply bind_ext; intros D'.
  apply bind_ext; intros d. destruct (py_lt _ _); [reflexivity | apply IH].
Qed.

Lemma _get_D_mirror (self : PoolState) :
  SS._get_D (mirror self) = SS._get_D self.
Proof.
  unfold SS._get_D. cbn [mirror reserve_a reserve_b].
  rewrite (Z.add_comm (reserve_b self)). rewrite _get_D_loop_mirror. reflexivity.
Qed.

Lemma _get_y_mirror (self : PoolState) (u out_unit : string) (q : Z) :
  unit_a self <> unit_b self -> in_units self u = true ->
  SS._get_y (mirror self) [(u, q)] out_unit = SS._get_y self [(u, q)] out_unit.
Proof.
  intros Hne Hu. unfold SS._get_y.
  rewrite _get_D_mirror.
  cbn [mirror unit_a unit_b reserve_a reserve_b volume_fee unit quantity bind].
  rewrite !in_units_mirror. unfold in_units in Hu.
  destruct (String.eqb_spec u (unit_a self)) as [Ea | Ha];
    destruct (String.eqb_spec u (unit_b self)) as [Eb | Hb];
    cbn in Hu; try discriminate; try congruence; reflexivity.
Qed.

(** X6: the stable-swap quote does not depend on which of the two assets the
    pool calls [a] either: for an input of the pair, the pool with units and
    reserves exchanged gives the same quote, exceptions included. *)
Theorem stable_swap_quote_mirror (self : PoolState) (u : string) (q : Z) :
  unit_a self <> unit_b self -> in_units self u = true ->
  SS.get_amount_out (mirror self) [(u, q)] = SS.get_amount_out self [(u, q)].
Proof.
  intros Hne Hu. unfold SS.get_amount_out. cbn [unit bind].
  cbn [mirror unit_a unit_b reserve_a reserve_b].
  assert (Eout : (if (u =? unit_a self)%string then unit_b self else unit_a self)
                 = (if (u =? unit_b self)%string then unit_a self else unit_b self)).
  { unfold in_units in Hu.
    destruct (String.eqb_spec u (unit_a self)) as [Ea | Ha];
      destruct (String.eqb_spec u (unit_b self)) as [Eb | Hb];
      cbn in Hu; try discriminate; try congruence; reflexivity. }
  rewrite Eout. rewrite (_get_y_mirror self u _ q Hne Hu).
  apply bind_ext; intros out_asset.
  set (out_unit := if (u =? unit_b self)%string then unit_a self else unit_b self).
  assert (Eres : (if (out_unit =? unit_a self)%string
                  then reserve_a self else reserve_b self)
                 = (if (out_unit =? unit_b self)%string
                    then reserve_b self else reserve_a self)).
  { unfold out_unit.
    destruct (u =? unit_b self)%string.
    - rewrite String.eqb_refl.
      destruct (String.eqb_spec (unit_a self) (unit_b self)); congruence.
    - rewrite String.eqb_refl.
      destruct (String.eqb_spec (unit_b self) (unit_a self)); congruence. }
  rewrite Eres. reflexivity.
Qed.

Lemma stable_swap_quote_mirror_witness :
  SS.get_amount_out (mirror skewed_pool) [("lovelace", 1000000)]
  = SS.get_amount_out skewed_pool [("lovelace", 1000000)].
Proof.
  apply (stable_swap_quote_mirror skewed_pool "lovelace" 1000000).
  - cbn. discriminate.
  - reflexivity.
Defined.

(** ** The checks of [_get_y] *)

Lemma arithmetic_not_invalid_output (e : exn) :
  arithmetic_error e = true -> not_invalid_output e = true.
Proof. destruct e; cbn; auto; discriminate. Qed.

Lemma interpreter_not_invalid_output (e : exn) :
  interpreter_error e = true -> not_invalid_output e = true.
Proof.
  destruct e as [msg | msg | | | ]; cbn; auto.
  intros H. apply String.eqb_eq in H. subst msg. reflexivity.
Qed.

(** With an output unit of the pair, [_get_y] never reports an invalid
    output token. *)
Lemma _get_y_output_accepted (self : PoolState) (in_assets : Assets)
    (out_unit : string) :
  in_units self out_unit = true ->
  raises_only not_invalid_output (SS._get_y self in_assets out_unit).
Proof.
  intros Hout. unfold SS._get_y.
  apply raises_only_bind;
    [eapply raises_only_weaken;
       [apply arithmetic_not_invalid_output | apply _get_D_raises]
    | intros D].
  apply raises_only_bind.
  { destruct (1 <? len in_assets); [reflexivity | ].
    destruct in_assets as [ | [u q] rest]; [reflexivity | ]. cbn [unit bind].
    destruct (in_units self u); [ | reflexivity]. rewrite Hout. exact Logic.I. }
  intros _.
  apply raises_only_bind; [destruct in_assets as [ | [u q] rest]; [reflexivity | exact Logic.I] | intros q].
  apply raises_only_bind;
    [eapply raises_only_weaken; [apply arithmetic_not_invalid_output | arithmetic_only]
    | intros in_quantity].
  apply raises_only_bind; [destruct in_assets as [ | [u q'] rest]; [reflexivity | exact Logic.I] | intros u].
  apply raises_only_bind;
    [eapply raises_only_weaken; [apply arithmetic_not_invalid_output | ]
    | intros in_reserve].
  { destruct (u =? unit_a self)%string; arithmetic_only. }
  apply raises_only_bind;
    [eapply raises_only_weaken; [apply arithmetic_not_invalid_output | arithmetic_only]
    | intros c].
  apply raises_only_bind;
    [eapply raises_only_weaken; [apply arithmetic_not_invalid_output | arithmetic_only]
    | intros b].
  apply raises_only_bind;
    [eapply raises_only_weaken;
       [apply arithmetic_not_invalid_output | apply _get_y_loop_raises]
    | intros out].
  apply raises_only_bind;
    [eapply raises_only_weaken; [apply interpreter_not_invalid_output | apply py_int_raises]
    | intros n; exact Logic.I].
Qed.

(** X7: the stable-swap quote never fails with "Invalid output token.": the
    output unit it hands to [_get_y] is always one of the pool's two units,
    whatever the input bag. *)
Theorem stable_swap_quote_never_invalid_output
    (self : PoolState) (asset : Assets) :
  SS.get_amount_out self asset <> Raise (ValueError "Invalid output token.").
Proof.
  assert (H : raises_only not_invalid_output (SS.get_amount_out self asset)).
  { unfold SS.get_amount_out.
    apply raises_only_bind;
      [destruct asset as [ | [u q] rest]; [reflexivity | exact Logic.I] | intros u].
    apply raises_only_bind;
      [apply _get_y_output_accepted, out_unit_in_units | intros out_asset].
    destruct out_asset as [ | [k v] tl]; [reflexivity | exact Logic.I]. }
  intros E. rewrite E in H. discriminate H.
Qed.

(** X8: once [D] is computed, [_get_y] reports the first check that fails, in
    the order of the source: a second entry is reported whatever the units
    are, a foreign input unit whatever the output unit is, and a foreign
    output unit only for a one-entry bag of the pair. *)
Theorem _get_y_checks_in_order
    (self : PoolState) (D : num) (out_unit foreign_out : string)
    (u foreign u_ok : string) (q : Z) (rest : Assets) :
  SS._get_D self = Ok D ->
  rest <> [] ->
  in_units self foreign = false ->
  in_units self u_ok = true -> in_units self foreign_out = false ->
  SS._get_y self ((u, q) :: rest) out_unit
  = Raise (ValueError "Only one input asset allowed.")
  /\ SS._get_y self [(foreign, q)] out_unit
     = Raise (ValueError "Invalid input token.")
  /\ SS._get_y self [(u_ok, q)] foreign_out
     = Raise (ValueError "Invalid output token.").
Proof.
  intros HD Hrest Hforeign Hu Hout. unfold SS._get_y. rewrite HD. cbn [bind].
  split; [ | split].
  - destruct rest as [ | entry rest]; [contradiction | ].
    replace (1 <? len ((u, q) :: entry :: rest)) with true; [reflexivity | ].
    symmetry. apply Z.ltb_lt. unfold len. cbn [List.length]. lia.
  - change (1 <? len [(foreign, q)]) with false. cbn [unit bind].
    rewrite Hforeign. reflexivity.
  - change (1 <? len [(u_ok, q)]) with false. cbn [unit bind].
    rewrite Hu, Hout. reflexivity.
Qed.

Lemma _get_y_checks_in_order_witness :
  SS._get_y example_pool [("foreign", 5); ("other", 7)] "nothing"
  = Raise (ValueError "Only one input asset allowed.")
  /\ SS._get_y example_pool [("other", 5)] "nothing"
     = Raise (ValueError "Invalid input token.")
  /\ SS._get_y example_pool [("token", 5)] "foreign"
     = Raise (ValueError "Invalid output token.").
Proof.
  apply (_get_y_checks_in_order example_pool
           (PFloat (S754_finite false 8589934592000000 (-32)))
           "nothing" "foreign" "foreign" "other" "token" 5 [("other", 7)]).
  - vm_compute. reflexivity.
  - discriminate.
  - reflexivity.
  - reflexivity.
  - reflexivity.
Defined.

(** ** Pools with an empty side *)

Lemma _get_D_one_sided (self : PoolState) :
  reserve_a self + reserve_b self <> 0 ->
  reserve_a self * reserve_b self = 0 ->
  SS._get_D self = Raise ZeroDivisionError.
Proof.
  intros HS Hprod. unfold SS._get_D.
  destruct (Z.eqb_spec (reserve_a self + reserve_b self) 0) as [ | _];
    [contradiction | ].
  apply _get_D_loop_one_sided. rewrite <- Z.mul_assoc, Hprod. apply Z.mul_0_r.
Qed.

(** X9: a stable-swap pool with exactly one empty side quotes nothing: on
    every bag that is not empty, valid or not, the quote ends in a division
    by zero. *)
Theorem one_sided_pool_quotes_nothing
    (self : PoolState) (u : string) (q : Z) (rest : Assets) :
  reserve_a self + reserve_b self <> 0 ->
  reserve_a self * reserve_b self = 0 ->
  SS.get_amount_out self ((u, q) :: rest) = Raise ZeroDivisionError.
Proof.
  intros HS Hprod. unfold SS.get_amount_out. cbn [unit bind].
  unfold SS._get_y. rewrite (_get_D_one_sided self HS Hprod). reflexivity.
Qed.

Lemma one_sided_pool_quotes_nothing_witness :
  SS.get_amount_out one_sided_pool [("token", 3)] = Raise ZeroDivisionError.
Proof.
  apply (one_sided_pool_quotes_nothing one_sided_pool "token" 3 []).
  - cbn. lia.
  - reflexivity.
Defined.

(** X10: a stable-swap pool with both sides empty quotes a positive input
    (below the range of a double) at zero: the bag of the other unit with
    quantity 0, price impact 0. *)
Theorem empty_pool_quotes_zero (self : PoolState) (u : string) (q : Z) :
  reserve_a self = 0 -> reserve_b self = 0 ->
  0 <= volume_fee self < 10000 ->
  in_units self u = true ->
  0 < q -> q * (10000 - volume_fee self) < 10000 * 2 ^ 1023 ->
  SS.get_amount_out self [(u, q)] = Ok ([(Q.unit_out self u, 0)], PInt 0).
Proof.
  intros Ha Hb Hfee Hu Hq Hrange.
  unfold SS.get_amount_out. cbn [unit bind].
  rewrite (stable_out_unit self u Hu).
  rewrite (_get_y_empty_positive_input self u (Q.unit_out self u) q);
    try assumption.
  - cbn [bind quantity unit setitem]. rewrite String.eqb_refl.
    destruct (Q.unit_out self u =? unit_b self)%string; rewrite ?Ha, ?Hb; reflexivity.
  - rewrite <- (stable_out_unit self u Hu). apply out_unit_in_units.
Qed.

Lemma empty_pool_quotes_zero_witness :
  SS.get_amount_out empty_pool [("token", 1000)] = Ok ([("lovelace", 0)], PInt 0).
Proof.
  apply (empty_pool_quotes_zero empty_pool "token" 1000).
  - reflexivity.
  - reflexivity.
  - cbn; lia.
  - reflexivity.
  - lia.
  - cbn [volume_fee empty_pool].
    assert (0 < 2 ^ 1023) by (apply Z.pow_pos_nonneg; lia). lia.
Defined.

(** ** What [_get_D] returns *)

Lemma _get_D_loop_is_float (self : PoolState) (N_COINS Ann S : Z) (i : nat) :
  forall (D r : num),
    SS._get_D_loop (Datatypes.S i) self N_COINS Ann S D = Ok r ->
    exists f, r = PFloat f.
Proof.
  induction i as [ | i IH]; intros D r; cbn [SS._get_D_loop].
  - destruct (val D ** 3 / int (N_COINS ^ N_COINS * reserve_a self * reserve_b self))%py
      as [D_P | e]; cbn [bind]; [ | discriminate].
    destruct (val D * (int (Ann * S) + val D_P * int N_COINS)
              / (int (Ann - 1) * val D + int (N_COINS + 1) * val D_P))%py
      as [D' | e] eqn:E; cbn [bind]; [ | discriminate].
    apply lift2_truediv_is_float in E. destruct E as [f ->].
    destruct (val (PFloat f) - val D)%py; cbn [bind]; [ | discriminate].
    destruct (py_lt _ _); intros [= <-]; eauto.
  - destruct (val D ** 3 / int (N_COINS ^ N_COINS * reserve_a self * reserve_b self))%py
      as [D_P | e]; cbn [bind]; [ | discriminate].
    destruct (val D * (int (Ann * S) + val D_P * int N_COINS)
              / (int (Ann - 1) * val D + int (N_COINS + 1) * val D_P))%py
      as [D' | e] eqn:E; cbn [bind]; [ | discriminate].
    apply lift2_truediv_is_float in E. destruct E as [f ->].
    destruct (val (PFloat f) - val D)%py; cbn [bind]; [ | discriminate].
    destruct (py_lt _ _); [intros [= <-]; eauto | ].
    apply IH.
Qed.

(** X11: what [_get_D] returns is the integer 0 on a pool whose reserves sum
    to 0 and a float on every other pool: never an integer other than that
    0. *)
Theorem _get_D_is_zero_or_float (self : PoolState) (D : num) :
  SS._get_D self = Ok D ->
  if reserve_a self + reserve_b self =? 0
  then D = PInt 0
  else exists f, D = PFloat f.
Proof.
  unfold SS._get_D.
  destruct (reserve_a self + reserve_b self =? 0); [congruence | ].
  apply _get_D_loop_is_float.
Qed.

Lemma _get_D_is_zero_or_float_witness :
  exists f, PFloat (S754_finite false 4637059334471471 (-22)) = PFloat f.
Proof.
  apply (_get_D_is_zero_or_float skewed_pool).
  vm_compute. reflexivity.
Defined.

(** ** The pool datum *)

(** X12: the pool datum is decoded once: after a call of [pool_datum] that
    returned, every later call returns the same datum and leaves the object
    as it is, whatever the decoder would do, and the raw encoding is
    untouched. *)
Theorem pool_datum_is_memoised
    (PlutusData : Type) (from_cbor from_cbor' : string -> result PlutusData)
    (self self' : PD.DatumState PlutusData) (datum : PlutusData) :
  PD.pool_datum from_cbor self = (Ok datum, self') ->
  PD.pool_datum from_cbor' self' = (Ok datum, self')
  /\ PD.datum_parsed self' = Some datum
  /\ PD.datum_cbor self' = PD.datum_cbor self.
Proof.
  unfold PD.pool_datum.
  destruct self as [[parsed | ] cbor]; cbn [PD.datum_parsed PD.datum_cbor].
  - intros [= <- <-]. cbn. auto.
  - destruct cbor as [raw | ]; [ | discriminate].
    destruct (raw =? "")%string; [discriminate | ].
    destruct (from_cbor raw) as [parsed | e]; [ | discriminate].
    intros [= <- <-]. cbn. auto.
Qed.

Lemma pool_datum_is_memoised_witness :
  PD.pool_datum failing_decoder decoded = (Ok 4, decoded)
  /\ PD.datum_parsed decoded = Some 4
  /\ PD.datum_cbor decoded = PD.datum_cbor undecoded.
Proof.
  apply (pool_datum_is_memoised Z length_decoder failing_decoder undecoded).
  reflexivity.
Defined.

(** X13: a call of [pool_datum] that fails leaves the object as it was, with
    no datum cached, and it fails in one of two ways: with the [ValueError]
    "No datum specified." when there is no raw encoding (or an empty one),
    the decoder not being called, or with the exception of the decoder on the
    raw encoding. *)
Theorem pool_datum_failure
    (PlutusData : Type) (from_cbor : string -> result PlutusData)
    (self self' : PD.DatumState PlutusData) (e : exn) :
  PD.pool_datum from_cbor self = (Raise e, self') ->
  self' = self
  /\ PD.datum_parsed self = None
  /\ ((PD.no_cbor self = true /\ e = ValueError "No datum specified.")
      \/ (exists raw, PD.datum_cbor self = Some raw /\ raw <> ""
                      /\ from_cbor raw = Raise e)).
Proof.
  unfold PD.pool_datum, PD.no_cbor.
  destruct self as [[parsed | ] cbor]; cbn [PD.datum_parsed PD.datum_cbor];
    [discriminate | ].
  destruct cbor as [raw | ].
  - destruct (String.eqb_spec raw "") as [-> | Hraw].
    + intros [= <- <-]. auto.
    + destruct (from_cbor raw) as [parsed | e'] eqn:E; [discriminate | ].
      intros [= <- <-]. repeat split. right. exists raw. auto.
  - intros [= <- <-]. auto.
Qed.

Lemma pool_datum_failure_witness :
  blank = blank
  /\ PD.datum_parsed blank = None
  /\ ((PD.no_cbor blank = true
       /\ ValueError "No datum specified." = ValueError "No datum specified.")
      \/ (exists raw,
            PD.datum_cbor blank = Some raw /\ raw <> ""
            /\ length_decoder raw = Raise (ValueError "No datum specified."))).
Proof.
  apply (pool_datum_failure Z length_decoder blank).
  reflexivity.
Defined.
